(** * docland: the item page assembler and the usage statement synthesizer

    A shallow embedding of [components/doc.tsx] (the second unit of
    [src/components/meta.tsx]): [isTypeOnly], [CodeBlock], [Doc],
    [DocToc], [DocPage] and [parseUsage]; and, of the components around
    them, the title and link of [DocMeta], the titles of
    [SideBarHeader], the code line of [Usage], [DocNodes] and
    [ModuleToc].

    Strings are byte strings.  The only string operations the code
    performs are splitting on ["."], joining with ["."], concatenation
    and prefix/suffix tests against ASCII literals; all of them act the
    same on UTF-16 code units and on UTF-8 bytes. *)

From Stdlib Require Import Strings.String Strings.Ascii Lists.List Bool.Bool.
From Stdlib Require Import Arith.Arith Arith.PeanoNat Lia.
Import ListNotations.

Set Warnings "-register-all".

Open Scope string_scope.
Open Scope list_scope.

(** ** JavaScript primitives used by the component *)

Module JS.

(** The double quote and line feed characters of the template literals. *)
Definition dq : string := String (ascii_of_nat 34) EmptyString.
Definition nl : string := String (ascii_of_nat 10) EmptyString.

(** [s.split(sep)] for a one character separator.  The result is never
    empty: the empty string splits into one empty segment. *)
Fixpoint split (sep : ascii) (s : string) : list string :=
  match s with
  | EmptyString => [EmptyString]
  | String c rest =>
      if Ascii.eqb c sep then EmptyString :: split sep rest
      else match split sep rest with
           | seg :: segs => String c seg :: segs
           | [] => [String c EmptyString]
           end
  end.

(** [parts.join(sep)]. *)
Definition join (sep : string) (parts : list string) : string :=
  String.concat sep parts.

(** [arr.pop()]: the removed last element ([None] is [undefined], on an
    empty array) and the array as it is left. *)
Fixpoint pop {A : Type} (arr : list A) : option A * list A :=
  match arr with
  | [] => (None, [])
  | [x] => (Some x, [])
  | x :: rest => let '(last, rest') := pop rest in (last, x :: rest')
  end.

(** [arr.push(x)]. *)
Definition push {A : Type} (arr : list A) (x : A) : list A := arr ++ [x].

(** [arr.find(p)]. *)
Definition find {A : Type} (p : A -> bool) (arr : list A) : option A :=
  List.find p arr.

(** Truthiness of a value of type [string | undefined]. *)
Definition truthy (v : option string) : bool :=
  match v with
  | Some s => negb (String.eqb s EmptyString)
  | None => false
  end.

(** Truthiness of a value of type [boolean | undefined]. *)
Definition truthyb (v : option bool) : bool :=
  match v with
  | Some b => b
  | None => false
  end.

(** A value of type [string | undefined] inside a template literal. *)
Definition interp (v : option string) : string :=
  match v with
  | Some s => s
  | None => "undefined"
  end.

(** [s.startsWith(p)] and [s.endsWith(p)]. *)
Definition startsWith (s p : string) : bool := String.prefix p s.

Definition endsWith (s p : string) : bool :=
  Nat.leb (String.length p) (String.length s)
  && String.eqb
       (String.substring (String.length s - String.length p)
          (String.length p) s) p.

End JS.

(** ** Data model *)

(** The structured view of a module specifier ([util.ts], [parseURL]). *)
Record ParsedURL : Type := mkParsedURL {
  registry : string;
  org : option string;
  package : option string;
  version : option string;
  module : option string
}.

(** [interface ParsedUsage].  [importSymbol] is the run time value of
    [itemParts[0]], an index access, so it is kept as an optional value
    here; the optional fields are [None] when [undefined]. *)
Record ParsedUsage : Type := mkParsedUsage {
  importSymbol : option string;
  usageSymbol : option string;
  localVar : option string;
  importStatement : string
}.

(** The [kind] discriminant of a [DocNode]. *)
Inductive DocNodeKind : Type :=
| KindClass
| KindEnum
| KindFunction
| KindImport
| KindInterface
| KindModuleDoc
| KindNamespace
| KindTypeAlias
| KindVariable.

(** A structured documentation comment: body text and tag kinds. *)
Record JsDoc : Type := mkJsDoc {
  doc : option string;
  tags : list string
}.

(** A documentation node: the common fields and the payload of its kind.
    Only the namespace payload ([namespaceDef.elements]) is read by this
    component; the other payloads are read by the per-kind renderers. *)
Inductive DocNode : Type :=
| mkDocNode (name : string) (jsDoc : option JsDoc) (def : DocNodeDef)
with DocNodeDef : Type :=
| ClassDef
| EnumDef
| FunctionDef
| ImportDef
| InterfaceDef
| ModuleDocDef
| NamespaceDef (elements : list DocNode)
| TypeAliasDef
| VariableDef.

Definition name (n : DocNode) : string :=
  match n with mkDocNode nm _ _ => nm end.

Definition jsDoc (n : DocNode) : option JsDoc :=
  match n with mkDocNode _ js _ => js end.

Definition def (n : DocNode) : DocNodeDef :=
  match n with mkDocNode _ _ d => d end.

Definition kind (n : DocNode) : DocNodeKind :=
  match def n with
  | ClassDef => KindClass
  | EnumDef => KindEnum
  | FunctionDef => KindFunction
  | ImportDef => KindImport
  | InterfaceDef => KindInterface
  | ModuleDocDef => KindModuleDoc
  | NamespaceDef _ => KindNamespace
  | TypeAliasDef => KindTypeAlias
  | VariableDef => KindVariable
  end.

(** [node.namespaceDef.elements], read after a cast to [DocNodeNamespace]. *)
Definition namespaceDef_elements (n : DocNode) : list DocNode :=
  match def n with
  | NamespaceDef elements => elements
  | _ => []
  end.

(** [k1 === k2] on kinds. *)
Definition kind_eqb (k1 k2 : DocNodeKind) : bool :=
  match k1, k2 with
  | KindClass, KindClass
  | KindEnum, KindEnum
  | KindFunction, KindFunction
  | KindImport, KindImport
  | KindInterface, KindInterface
  | KindModuleDoc, KindModuleDoc
  | KindNamespace, KindNamespace
  | KindTypeAlias, KindTypeAlias
  | KindVariable, KindVariable => true
  | _, _ => false
  end.

(** The per-kind renderers of the sibling modules, as constructors: what
    [CodeBlock], [Doc] and [DocToc] hand each node to. *)
Inductive CodeElement : Type :=
| ClassCodeBlock (node : DocNode)
| EnumCodeBlock (node : DocNode)
| InterfaceCodeBlock (node : DocNode)
| TypeAliasCodeBlock (node : DocNode)
| VariableCodeBlock (node : DocNode)
| FnCodeBlock (nodes : list DocNode).

Inductive DocElement : Type :=
| ClassDoc (node : DocNode)
| EnumDoc (node : DocNode)
| InterfaceDoc (node : DocNode)
| NamespaceDoc (path : list string) (node : DocNode)
| TypeAliasDoc (node : DocNode)
| FnDoc (nodes : list DocNode).

Inductive TocElement : Type :=
| ClassToc (node : DocNode)
| EnumToc (node : DocNode)
| InterfaceToc (node : DocNode)
| NamespaceToc (node : DocNode)
| TypeAliasToc (node : DocNode).

(** The rendered tree.  Styling attributes are left out; components of
    other modules, and the components of this module that no property
    below looks into, are nodes carrying their props. *)
Inductive Element : Type :=
| EText (s : string)
| EHtml (tag : string) (children : list Element)
| EErrorMessage (title : string) (children : list Element)
| EDocMeta (base url doc : string) (item : option string)
| ESideBarHeader (url : string)
| EToc (toc : TocElement)
| EUsage (url : string) (item : option string) (isType : option bool)
| ETag (color : string) (children : list Element)
| EJsDoc (tags : list string) (jsDoc : option JsDoc)
| ECode (block : CodeElement)
| EDoc (section : DocElement)
| EModuleToc (library : bool) (entries : list DocNode) (includePrivate : bool)
| EDocNodes (url : string) (library : bool) (entries : list DocNode)
    (includePrivate : bool).

(** [StoreState]: the single slot of render state ([shared.ts]). *)
Record StoreState : Type := mkStoreState {
  entries : list DocNode;
  url : string;
  includePrivate : bool;
  namespaces : option (list DocNode)
}.

Section Docland.

(** [parseURL] and [camelize] live in [util.ts], outside this
    fragment; the component is verified for any such pair. *)
Variable parseURL : string -> option ParsedURL.
Variable camelize : string -> string.

(** [isAbstract] ([common.tsx]) and [isDeprecated] ([jsdoc.tsx]) decide
    the two badges of an item page. *)
Variable isAbstract : DocNode -> bool.
Variable isDeprecated : option JsDoc -> bool.

(** [parsed?.package ?? "mod"] *)
Definition packageOrMod (parsed : option ParsedURL) : string :=
  match parsed with
  | Some p => match package p with Some pkg => pkg | None => "mod" end
  | None => "mod"
  end.

Definition parseUsage (url : string) (item : option string)
    (isType : option bool) : ParsedUsage :=
  let parsed := parseURL url in
  let itemParts := option_map (JS.split ".") item in
  let importSymbol :=
    match itemParts with
    | Some parts => nth_error parts 0
    | None => Some (camelize (packageOrMod parsed))
    end in
  (* [itemParts.pop()] mutates the array that [join] reads below *)
  let '(usageSymbol, itemParts) :=
    match itemParts with
    | Some parts =>
        if Nat.ltb 1 (List.length parts)
        then let '(last, rest) := JS.pop parts in (last, Some rest)
        else (None, Some parts)
    | None => (None, None)
    end in
  let localVar := option_map (JS.join ".") itemParts in
  let importStatement :=
    if JS.truthy item
    then ("import " ++ (if JS.truthyb isType then "type " else "")
          ++ "{ " ++ JS.interp importSymbol ++ " } from "
          ++ JS.dq ++ url ++ JS.dq ++ ";" ++ JS.nl)%string
    else ("import * as " ++ JS.interp importSymbol ++ " from "
          ++ JS.dq ++ url ++ JS.dq ++ ";" ++ JS.nl)%string in
  let importStatement :=
    if JS.truthy usageSymbol
    then (importStatement ++ JS.nl ++ "const { " ++ JS.interp usageSymbol
          ++ " } = " ++ JS.interp localVar ++ ";" ++ JS.nl)%string
    else importStatement in
  {| importSymbol := importSymbol;
     usageSymbol := usageSymbol;
     localVar := localVar;
     importStatement := importStatement |}.

(** *** The dispatchers *)

Definition isTypeOnly (nodes : list DocNode) : bool :=
  forallb
    (fun node =>
       kind_eqb (kind node) KindInterface || kind_eqb (kind node) KindTypeAlias)
    nodes.

(** The body of the [for] loop of [CodeBlock]. *)
Definition codeBlockStep (elements : list CodeElement) (node : DocNode)
    : list CodeElement :=
  match kind node with
  | KindClass => JS.push elements (ClassCodeBlock node)
  | KindEnum => JS.push elements (EnumCodeBlock node)
  | KindInterface => JS.push elements (InterfaceCodeBlock node)
  | KindTypeAlias => JS.push elements (TypeAliasCodeBlock node)
  | KindVariable => JS.push elements (VariableCodeBlock node)
  | _ => elements
  end.

Definition isFunction (node : DocNode) : bool :=
  kind_eqb (kind node) KindFunction.

Definition CodeBlock (nodes : list DocNode) : list CodeElement :=
  let elements := fold_left codeBlockStep nodes [] in
  let fnNodes := filter isFunction nodes in
  if negb (Nat.eqb (List.length fnNodes) 0)
  then JS.push elements (FnCodeBlock fnNodes)
  else elements.

(** The body of the [for] loop of [Doc]. *)
Definition docStep (path : list string) (elements : list DocElement)
    (node : DocNode) : list DocElement :=
  match kind node with
  | KindClass => JS.push elements (ClassDoc node)
  | KindEnum => JS.push elements (EnumDoc node)
  | KindInterface => JS.push elements (InterfaceDoc node)
  | KindNamespace => JS.push elements (NamespaceDoc path node)
  | KindTypeAlias => JS.push elements (TypeAliasDoc node)
  | _ => elements
  end.

Definition Doc (path : list string) (nodes : list DocNode)
    : list DocElement :=
  let elements := fold_left (docStep path) nodes [] in
  let fnNodes := filter isFunction nodes in
  if negb (Nat.eqb (List.length fnNodes) 0)
  then JS.push elements (FnDoc fnNodes)
  else elements.

(** The final [switch] of [DocToc]. *)
Definition tocOf (node : DocNode) : option TocElement :=
  match kind node with
  | KindClass => Some (ClassToc node)
  | KindEnum => Some (EnumToc node)
  | KindInterface => Some (InterfaceToc node)
  | KindNamespace => Some (NamespaceToc node)
  | KindTypeAlias => Some (TypeAliasToc node)
  | _ => None
  end.

(** [None] is the bare [return] (or [return undefined]). *)
Definition DocToc (nodes : list DocNode) : option TocElement :=
  if Nat.eqb (List.length nodes) 0 then None
  else
    let node :=
      if Nat.ltb 1 (List.length nodes)
      then
        if Nat.eqb (List.length nodes) 2
        then JS.find (fun n => kind_eqb (kind n) KindInterface) nodes
        else None
      else nth_error nodes 0 in
    match node with
    | Some node => tocOf node
    | None => None
    end.

(** *** The page assembler *)

(** [n.kind === "namespace" && n.name === name] *)
Definition isNamespaceNamed (nm : string) (n : DocNode) : bool :=
  kind_eqb (kind n) KindNamespace && String.eqb (name n) nm.

(** One turn of the [for (const name of path)] loop, on the pair of
    the local [entries] and [namespaces]. *)
Definition resolveStep (acc : list DocNode * list DocNode) (nm : string)
    : list DocNode * list DocNode :=
  let '(entries, namespaces) := acc in
  match JS.find (isNamespaceNamed nm) entries with
  | Some namespace =>
      (namespaceDef_elements namespace, JS.push namespaces namespace)
  | None => (entries, namespaces)
  end.

Definition resolvePath (entries : list DocNode) (path : list string)
    : list DocNode * list DocNode :=
  fold_left resolveStep path (entries, []).

(** [e.name === name && e.kind !== "import"], where [name] is what
    [path.pop()] returned. *)
Definition isTarget (nm : option string) (e : DocNode) : bool :=
  match nm with
  | Some nm => String.eqb (name e) nm && negb (kind_eqb (kind e) KindImport)
  | None => false
  end.

(** The local [entries] and the store as they are once the dotted
    [item] has been resolved. *)
Definition resolveItem (state : StoreState) (item : string)
    : list DocNode * StoreState :=
  let '(_, path) := JS.pop (JS.split "." item) in
  if negb (Nat.eqb (List.length path) 0)
  then
    let '(entries', namespaces') := resolvePath (entries state) path in
    (entries',
     {| entries := entries state;
        url := url state;
        includePrivate := includePrivate state;
        namespaces := Some namespaces' |})
  else (entries state, state).

(** [const nodes = entries.filter(...)] *)
Definition targetNodes (state : StoreState) (item : string)
    : list DocNode :=
  let '(nm, _) := JS.pop (JS.split "." item) in
  filter (isTarget nm) (fst (resolveItem state item)).

(** The first doc comment among the nodes ([for ... break]). *)
Fixpoint firstJsDoc (nodes : list DocNode) : option JsDoc :=
  match nodes with
  | [] => None
  | node :: rest =>
      match jsDoc node with
      | Some js => Some js
      | None => firstJsDoc rest
      end
  end.

(** [jsDoc?.doc ?? ""] *)
Definition docOrEmpty (js : option JsDoc) : string :=
  match js with
  | Some d => match doc d with Some text => text | None => "" end
  | None => ""
  end.

Definition notFoundPage (item url : string) : Element :=
  EHtml "main"
    [ EHtml "h1" [EText "Deno Doc"];
      EErrorMessage "Entry not found"
        [ EText ("The document entry named " ++ JS.dq)%string;
          EText item;
          EText (JS.dq ++ " was not found in specifier " ++ JS.dq)%string;
          EText url;
          EText (JS.dq ++ ".")%string ] ].

(** A child that is [undefined] unless [c] holds. *)
Definition when (c : bool) (e : Element) : list Element :=
  if c then [e] else [].

Definition tocChild (toc : option TocElement) : list Element :=
  match toc with
  | Some t => [EToc t]
  | None => []
  end.

Definition itemPage (base : string) (state : StoreState) (item : string)
    : Element * StoreState :=
  let url := url state in
  let library := JS.startsWith url "deno/" in
  let '(_, path) := JS.pop (JS.split "." item) in
  let '(_, state') := resolveItem state item in
  let nodes := targetNodes state item in
  match nodes with
  | [] => (notFoundPage item url, state')
  | first :: _ =>
      let jsDoc := firstJsDoc nodes in
      (EHtml "div"
         [ EDocMeta base url (docOrEmpty jsDoc) (Some item);
           EHtml "nav" (ESideBarHeader url :: tocChild (DocToc nodes));
           EHtml "article"
             (EHtml "h1" [EText item]
              :: when (negb (JS.endsWith url ".d.ts" || library))
                   (EUsage url (Some item) (Some (isTypeOnly nodes)))
              ++ when (isAbstract first) (ETag "yellow" [EText "abstract"])
              ++ when (isDeprecated jsDoc) (ETag "gray" [EText "deprecated"])
              ++ EJsDoc ["deprecated"] jsDoc
              :: map ECode (CodeBlock nodes)
              ++ map EDoc (Doc path nodes)) ],
       state')
  end.

Definition modulePage (base : string) (state : StoreState)
    : Element * StoreState :=
  let url := url state in
  let library := JS.startsWith url "deno/" in
  let jsDoc :=
    match JS.find (fun n => kind_eqb (kind n) KindModuleDoc) (entries state)
    with
    | Some n => jsDoc n
    | None => None
    end in
  (EHtml "div"
     [ EDocMeta base url (docOrEmpty jsDoc) None;
       EHtml "nav"
         [ ESideBarHeader url;
           EModuleToc library (entries state) (includePrivate state) ];
       EDocNodes url library (entries state) (includePrivate state) ],
   state).

(** [DocPage]: the page and the store as the call leaves it. *)
Definition DocPage (base : string) (state : StoreState)
    (children : option string) : Element * StoreState :=
  match children with
  | Some item =>
      if JS.truthy (Some item)
      then itemPage base state item
      else modulePage base state
  | None => modulePage base state
  end.

(** *** Reading a rendered tree *)

(** Every node of a tree, parents first. *)
Fixpoint nodesOf (e : Element) : list Element :=
  e :: match e with
       | EHtml _ children
       | EErrorMessage _ children
       | ETag _ children => flat_map nodesOf children
       | _ => []
       end.

(** What [pick] selects among the nodes of a tree. *)
Definition collect {A : Type} (pick : Element -> list A) (page : Element)
    : list A :=
  flat_map pick (nodesOf page).

Definition pickCode (e : Element) : list CodeElement :=
  match e with ECode b => [b] | _ => [] end.

Definition pickDoc (e : Element) : list DocElement :=
  match e with EDoc d => [d] | _ => [] end.

Definition pickUsage (e : Element)
    : list (string * option string * option bool) :=
  match e with EUsage u i t => [(u, i, t)] | _ => [] end.

Definition pickError (e : Element) : list (string * list Element) :=
  match e with EErrorMessage t cs => [(t, cs)] | _ => [] end.

Definition codeBlocksOf : Element -> list CodeElement := collect pickCode.
Definition docBlocksOf : Element -> list DocElement := collect pickDoc.
Definition usageBlocksOf
  : Element -> list (string * option string * option bool) :=
  collect pickUsage.
Definition errorMessagesOf : Element -> list (string * list Element) :=
  collect pickError.

(** *** Sample documents *)

Definition sampleClassT : DocNode := mkDocNode "T" None ClassDef.

Definition sampleNamespaceB : DocNode :=
  mkDocNode "B" None (NamespaceDef [sampleClassT]).

Definition sampleInterfaceA : DocNode := mkDocNode "A" None InterfaceDef.

Definition sampleVariableA : DocNode := mkDocNode "A" None VariableDef.

Definition sampleState : StoreState :=
  {| entries := [sampleNamespaceB; sampleInterfaceA; sampleVariableA];
     url := "https://deno.land/x/oak/mod.ts";
     includePrivate := false;
     namespaces := None |}.

(** *** Vocabulary of the properties *)

(** The kinds that [CodeBlock] renders node by node. *)
Definition hasOwnCodeBlock (n : DocNode) : bool :=
  match kind n with
  | KindClass | KindEnum | KindInterface | KindTypeAlias | KindVariable =>
      true
  | _ => false
  end.

(** [b] is the block of the renderer of [n]'s kind, applied to [n]. *)
Inductive codeBlockFor : DocNode -> CodeElement -> Prop :=
| codeBlockFor_class n :
    kind n = KindClass -> codeBlockFor n (ClassCodeBlock n)
| codeBlockFor_enum n :
    kind n = KindEnum -> codeBlockFor n (EnumCodeBlock n)
| codeBlockFor_interface n :
    kind n = KindInterface -> codeBlockFor n (InterfaceCodeBlock n)
| codeBlockFor_typeAlias n :
    kind n = KindTypeAlias -> codeBlockFor n (TypeAliasCodeBlock n)
| codeBlockFor_variable n :
    kind n = KindVariable -> codeBlockFor n (VariableCodeBlock n).

(** The node a block was rendered from; the merged block has none. *)
Definition codeBlockNode (b : CodeElement) : option DocNode :=
  match b with
  | ClassCodeBlock n | EnumCodeBlock n | InterfaceCodeBlock n
  | TypeAliasCodeBlock n | VariableCodeBlock n => Some n
  | FnCodeBlock _ => None
  end.

(** The kinds that [Doc] renders node by node. *)
Definition hasOwnDoc (n : DocNode) : bool :=
  match kind n with
  | KindClass | KindEnum | KindInterface | KindNamespace | KindTypeAlias =>
      true
  | _ => false
  end.

Definition docNode (d : DocElement) : option DocNode :=
  match d with
  | ClassDoc n | EnumDoc n | InterfaceDoc n | NamespaceDoc _ n
  | TypeAliasDoc n => Some n
  | FnDoc _ => None
  end.

Definition newlineTerminated (s : string) : Prop :=
  exists body, s = (body ++ JS.nl)%string.

(** *** The exceptions and effects of [parseUsage] *)

Section Effects.

(** Whatever a call can read or write besides its arguments: the store
    of [shared.ts] and the state of the modules it calls. *)
Variable World : Type.

(** How a call ends: with a value, or with an exception. *)
Inductive Outcome (A : Type) : Type :=
| Returned (a : A)
| Raised (error : string).

Arguments Returned {A} a.
Arguments Raised {A} error.

Definition Eff (A : Type) : Type := World -> Outcome A * World.

Definition ret {A : Type} (a : A) : Eff A := fun w => (Returned a, w).

Definition raise {A : Type} (error : string) : Eff A :=
  fun w => (Raised error, w).

Definition bind {A B : Type} (c : Eff A) (k : A -> Eff B) : Eff B :=
  fun w =>
    match c w with
    | (Returned a, w') => k a w'
    | (Raised error, w') => (Raised error, w')
    end.

Notation "x <- c ;; k" := (bind c (fun x => k))
  (at level 61, c at next level, right associativity).

(** [recv.m], [recv[i]] or [recv.m()] on a value that may be
    [undefined]: a [TypeError] when it is. *)
Definition member {X A : Type} (recv : option X) (f : X -> A) : Eff A :=
  match recv with
  | Some x => ret (f x)
  | None => raise "TypeError"
  end.

(** [recv?.m] and [recv?.m()]: [undefined] when [recv] is. *)
Definition optional {X A : Type} (recv : option X) (f : X -> A)
    : Eff (option A) :=
  ret (option_map f recv).

(** Truthiness of an array or an object that may be [undefined]. *)
Definition isDefined {X : Type} (v : option X) : bool :=
  match v with
  | Some _ => true
  | None => false
  end.

(** [a ?? b] on a string that may be [undefined] at two levels. *)
Definition nullish (v : option (option string)) (b : string) : string :=
  match v with
  | Some (Some s) => s
  | _ => b
  end.

(** [parseUsage], statement by statement, with the calls of [parseURL]
    and [camelize] as effects and every member access as it is written:
    guarded by a test or by [?.], or not. *)
Definition parseUsageEff
    (parseURLEff : string -> Eff (option ParsedURL))
    (camelizeEff : string -> Eff string)
    (url : string) (item : option string) (isType : option bool)
    : Eff ParsedUsage :=
  parsed <- parseURLEff url ;;
  itemParts <- optional item (JS.split ".") ;;
  importSymbol <-
    (if isDefined itemParts
     then member itemParts (fun parts => nth_error parts 0)
     else pkg <- optional parsed package ;;
          symbol <- camelizeEff (nullish pkg "mod") ;;
          ret (Some symbol)) ;;
  long <-
    (if isDefined itemParts
     then len <- member itemParts (@List.length string) ;;
          ret (Nat.ltb 1 len)
     else ret false) ;;
  popped <-
    (if long
     then p <- member itemParts JS.pop ;; ret (fst p, Some (snd p))
     else ret (None, itemParts)) ;;
  localVar <- optional (snd popped) (JS.join ".") ;;
  let usageSymbol := fst popped in
  let importStatement :=
    if JS.truthy item
    then ("import " ++ (if JS.truthyb isType then "type " else "")
          ++ "{ " ++ JS.interp importSymbol ++ " } from "
          ++ JS.dq ++ url ++ JS.dq ++ ";" ++ JS.nl)%string
    else ("import * as " ++ JS.interp importSymbol ++ " from "
          ++ JS.dq ++ url ++ JS.dq ++ ";" ++ JS.nl)%string in
  let importStatement :=
    if JS.truthy usageSymbol
    then (importStatement ++ JS.nl ++ "const { " ++ JS.interp usageSymbol
          ++ " } = " ++ JS.interp localVar ++ ";" ++ JS.nl)%string
    else importStatement in
  ret {| importSymbol := importSymbol;
         usageSymbol := usageSymbol;
         localVar := localVar;
         importStatement := importStatement |}.

End Effects.

Arguments Returned {A} a.
Arguments Raised {A} error.

(** *** Vocabulary of the selections and of the resolution *)

(** [kept] is [nodes] without the nodes that do not satisfy [P], in the
    order of [nodes]. *)
Inductive keptFrom (P : DocNode -> Prop)
  : list DocNode -> list DocNode -> Prop :=
| keptFrom_nil : keptFrom P [] []
| keptFrom_keep n nodes kept :
    P n -> keptFrom P nodes kept -> keptFrom P (n :: nodes) (n :: kept)
| keptFrom_drop n nodes kept :
    ~ P n -> keptFrom P nodes kept -> keptFrom P (n :: nodes) kept.

(** [n] is a namespace named [nm]. *)
Definition namesNamespace (nm : string) (n : DocNode) : Prop :=
  kind n = KindNamespace /\ name n = nm.

(** No node of [es] is a namespace named [nm]. *)
Definition noNamespace (nm : string) (es : list DocNode) : Prop :=
  Forall (fun n => ~ namesNamespace nm n) es.

(** [ns] is the first namespace named [nm] of [es]. *)
Definition firstNamespace (nm : string) (es : list DocNode) (ns : DocNode)
    : Prop :=
  exists before after,
    es = before ++ ns :: after
    /\ namesNamespace nm ns
    /\ noNamespace nm before.

(** [resolves es trail path es' trail']: going through the segments of
    [path] from the list [es] and the trail [trail], entering the first
    namespace that a segment names in the current list and passing over
    a segment that names none, ends on the list [es'] with the trail
    [trail']. *)
Inductive resolves
  : list DocNode -> list DocNode -> list string ->
    list DocNode -> list DocNode -> Prop :=
| resolves_end es trail : resolves es trail [] es trail
| resolves_enter es trail nm path ns es' trail' :
    firstNamespace nm es ns ->
    resolves (namespaceDef_elements ns) (trail ++ [ns]) path es' trail' ->
    resolves es trail (nm :: path) es' trail'
| resolves_pass es trail nm path es' trail' :
    noNamespace nm es ->
    resolves es trail path es' trail' ->
    resolves es trail (nm :: path) es' trail'.

(** The number of nodes of a tree of entries. *)
Fixpoint nodeSize (n : DocNode) : nat :=
  match n with
  | mkDocNode _ _ d => S (defSize d)
  end
with defSize (d : DocNodeDef) : nat :=
  match d with
  | NamespaceDef elements =>
      (fix total (l : list DocNode) : nat :=
         match l with
         | [] => 0
         | n :: rest => nodeSize n + total rest
         end) elements
  | _ => 0
  end.

Fixpoint listSize (es : list DocNode) : nat :=
  match es with
  | [] => 0
  | n :: rest => nodeSize n + listSize rest
  end.

(** [s.includes(c)] for one character. *)
Fixpoint contains (c : ascii) (s : string) : bool :=
  match s with
  | EmptyString => false
  | String x rest => Ascii.eqb x c || contains c rest
  end.

(** [d] is the section of the renderer of [n]'s kind, applied to [n]. *)
Inductive docFor (path : list string) : DocNode -> DocElement -> Prop :=
| docFor_class n : kind n = KindClass -> docFor path n (ClassDoc n)
| docFor_enum n : kind n = KindEnum -> docFor path n (EnumDoc n)
| docFor_interface n :
    kind n = KindInterface -> docFor path n (InterfaceDoc n)
| docFor_namespace n :
    kind n = KindNamespace -> docFor path n (NamespaceDoc path n)
| docFor_typeAlias n :
    kind n = KindTypeAlias -> docFor path n (TypeAliasDoc n).

(** The node a table of contents was rendered from. *)
Definition tocNode (t : TocElement) : DocNode :=
  match t with
  | ClassToc n | EnumToc n | InterfaceToc n | NamespaceToc n
  | TypeAliasToc n => n
  end.

(** [trail] is a chain of namespaces, each one an element of the one
    before it, the first one an element of [es]. *)
Fixpoint nestedIn (es : list DocNode) (trail : list DocNode) : Prop :=
  match trail with
  | [] => True
  | ns :: rest =>
      In ns es /\ kind ns = KindNamespace
      /\ nestedIn (namespaceDef_elements ns) rest
  end.

(** The elements of the innermost namespace of [trail], or [es]. *)
Fixpoint innermost (es : list DocNode) (trail : list DocNode)
    : list DocNode :=
  match trail with
  | [] => es
  | ns :: rest => innermost (namespaceDef_elements ns) rest
  end.

Definition pickToc (e : Element) : list TocElement :=
  match e with EToc t => [t] | _ => [] end.

Definition pickMeta (e : Element)
    : list (string * string * string * option string) :=
  match e with EDocMeta b u d i => [(b, u, d, i)] | _ => [] end.

(** A parsed url for the samples. *)
Definition sampleParsed : ParsedURL :=
  {| registry := "deno.land/x";
     org := None;
     package := Some "oak";
     version := Some "v10.0.0";
     module := Some "mod.ts" |}.

(** *** The other components of the module *)

Section Components.

(** [getUrlLabel] ([shared.ts]), and [imp.importDef.src], the payload
    of an import node. *)
Variable getUrlLabel : string -> string.
Variable importDef_src : DocNode -> string.

(** The separator [" – "] of the titles: an en dash between spaces. *)
Definition enDash : string :=
  String " "
    (String (ascii_of_nat 226)
       (String (ascii_of_nat 128) (String (ascii_of_nat 147) " "))).

(** [href] of [DocMeta], the path of the preview image: the url, and the
    item after ["~/"]. *)
Definition docMetaHref (url : string) (item : option string) : string :=
  if JS.truthy item
  then (url ++ (if JS.endsWith url "/" then "" else "/") ++ "~/"
        ++ JS.interp item)%string
  else url.

(** [title] of [DocMeta]. *)
Definition docMetaTitle (url : string) (item : option string) : string :=
  match parseURL url with
  | Some parsed =>
      let orgPkg :=
        if JS.truthy (org parsed)
        then Some (JS.interp (org parsed) ++ "/"
                   ++ JS.interp (package parsed))%string
        else package parsed in
      let parts := [] in
      let parts :=
        if JS.truthy (module parsed)
        then JS.push parts (JS.interp (module parsed))
        else parts in
      let parts :=
        if JS.truthy orgPkg then JS.push parts (JS.interp orgPkg)
        else if String.eqb (registry parsed) "deno.land/std"
             then JS.push parts "std"
             else parts in
      let parts :=
        if JS.truthy (version parsed)
        then JS.push parts ("@" ++ JS.interp (version parsed))%string
        else parts in
      let parts := JS.push parts (registry parsed) in
      (JS.join enDash parts ++ " | Deno Doc")%string
  | None =>
      if JS.truthy item
      then (getUrlLabel url ++ enDash ++ JS.interp item ++ " | Deno Doc")%string
      else (getUrlLabel url ++ " | Deno Doc")%string
  end.

(** [s.replaceAll(c, by)] for a one character pattern. *)
Fixpoint replaceAll (c : ascii) (by_ : string) (s : string) : string :=
  match s with
  | EmptyString => EmptyString
  | String x rest =>
      if Ascii.eqb x c then (by_ ++ replaceAll c by_ rest)%string
      else String x (replaceAll c by_ rest)
  end.

(** The [module], [title] and [subtitle] that [SideBarHeader] computes
    from a parsed url. *)
Definition sideBarModule (parsed : ParsedURL) : option string :=
  if JS.truthy (module parsed)
  then Some (replaceAll "/" "&#8203;/" (JS.interp (module parsed)))
  else None.

Definition sideBarTitles (parsed : ParsedURL)
    : option string * option string :=
  let module := sideBarModule parsed in
  let title := module in
  let subtitle := None in
  let orgPkg :=
    (JS.interp (org parsed) ++ "/" ++ JS.interp (package parsed))%string in
  if JS.truthy (org parsed)
  then if JS.truthy module then (title, Some orgPkg)
       else (Some orgPkg, subtitle)
  else if JS.truthy (package parsed)
       then if JS.truthy module then (title, package parsed)
            else (package parsed, subtitle)
       else if String.eqb (registry parsed) "deno.land/std"
            then (title, Some "std")
            else (title, subtitle).

(** A child [{v}] of type [string | undefined]. *)
Definition child (v : option string) : list Element :=
  match v with
  | Some s => [EText s]
  | None => []
  end.

(** The [code] element of [Usage]: the statement as it is shown. *)
Definition usageCode (url : string) (item : option string)
    (isType : option bool) : Element :=
  let u := parseUsage url item isType in
  EHtml "code"
    (EHtml "span" [EText "import"]
     :: EText " "
     :: (if JS.truthy item
         then when (JS.truthyb isType) (EHtml "span" [EText "type"; EText " "])
              ++ EText "{ " :: child (importSymbol u) ++ [EText " }"]
         else EText "* " :: EHtml "span" [EText "as"] :: EText " "
              :: child (importSymbol u))
     ++ EText " "
     :: EHtml "span" [EText "from"]
     :: EText " "
     :: EHtml "span" [EText JS.dq; EText url; EText JS.dq]
     :: EText ";"
     :: (if JS.truthy (usageSymbol u)
         then EText (" " ++ JS.nl ++ JS.nl)%string
              :: EHtml "span" [EText "const"]
              :: EText " { "
              :: child (usageSymbol u)
              ++ EText " " :: EText "} = " :: child (localVar u)
              ++ [EText ";"]
         else [])).

(** The text of a tree: its text nodes, in order. *)
Fixpoint textOf (e : Element) : string :=
  match e with
  | EText s => s
  | EHtml _ children
  | EErrorMessage _ children
  | ETag _ children =>
      fold_right (fun c acc => (textOf c ++ acc)%string) "" children
  | _ => ""
  end.

(** Modelled from the spec: [DocNodeCollection], declared in
    [common.tsx], a mapping from kind to the entries of that kind.  As
    this module reads it, a group is absent or an array of pairs whose
    second component is the node. *)
Record DocNodeCollection : Type := mkDocNodeCollection {
  colModuleDoc : option (list (string * DocNode));
  colImport : option (list (string * DocNode));
  colNamespace : option (list (string * DocNode));
  colClass : option (list (string * DocNode));
  colEnum : option (list (string * DocNode));
  colVariable : option (list (string * DocNode));
  colFunction : option (list (string * DocNode));
  colInterface : option (list (string * DocNode));
  colTypeAlias : option (list (string * DocNode))
}.

(** The children of the box that [DocNodes] renders; [Section] is a
    component of [common.tsx]. *)
Inductive ModuleElement : Type :=
| MUsage (url : string)
| MJsDoc (jsDoc : option JsDoc)
| MSection (title style : string) (group : list (string * DocNode)).

(** [{group && <Section title=... style=...>{group}</Section>}] *)
Definition sectionOf (title style : string)
    (group : option (list (string * DocNode))) : list ModuleElement :=
  match group with
  | Some entries => [MSection title style entries]
  | None => []
  end.

(** [DocNodes].  [None] is the [TypeError] of
    [collection.moduleDoc[0][1]] on an empty group. *)
Definition DocNodes (url : string) (library : bool)
    (collection : DocNodeCollection) : option (list ModuleElement) :=
  let usage :=
    if JS.endsWith url ".d.ts" || library then [] else [MUsage url] in
  let moduleDoc :=
    match colModuleDoc collection with
    | Some ((_, node) :: _) => Some [MJsDoc (jsDoc node)]
    | Some [] => None
    | None => Some []
    end in
  match moduleDoc with
  | Some moduleDoc =>
      Some (usage ++ moduleDoc
            ++ sectionOf "Namespaces" "nodeNamespace" (colNamespace collection)
            ++ sectionOf "Classes" "nodeClass" (colClass collection)
            ++ sectionOf "Enums" "nodeEnum" (colEnum collection)
            ++ sectionOf "Variables" "nodeVariable" (colVariable collection)
            ++ sectionOf "Functions" "nodeFunction" (colFunction collection)
            ++ sectionOf "Interfaces" "nodeInterface"
                 (colInterface collection)
            ++ sectionOf "Type Aliases" "nodeTypeAlias"
                 (colTypeAlias collection))
  | None => None
  end.

(** [{group && <TocLink>title</TocLink>}] *)
Definition tocLinkOf (title : string)
    (group : option (list (string * DocNode))) : list string :=
  match group with
  | Some _ => [title]
  | None => []
  end.

(** [ModuleToc]: the header, the links, and the sources of the imports
    when there is an import group. *)
Definition ModuleToc (library : bool) (collection : DocNodeCollection)
    : string * list string * option (list string) :=
  let imports :=
    option_map (map (fun '(_, imp) => importDef_src imp))
      (colImport collection) in
  (("This " ++ (if library then "Library" else "Module"))%string,
   tocLinkOf "Namespaces" (colNamespace collection)
   ++ tocLinkOf "Classes" (colClass collection)
   ++ tocLinkOf "Enums" (colEnum collection)
   ++ tocLinkOf "Variables" (colVariable collection)
   ++ tocLinkOf "Functions" (colFunction collection)
   ++ tocLinkOf "Interfaces" (colInterface collection)
   ++ tocLinkOf "Type Aliases" (colTypeAlias collection),
   imports).

(** The titles of the sections among the children of [DocNodes]. *)
Definition sectionTitles (blocks : list ModuleElement) : list string :=
  flat_map
    (fun b => match b with MSection title _ _ => [title] | _ => [] end)
    blocks.

Definition usagesOf (blocks : list ModuleElement) : list string :=
  flat_map (fun b => match b with MUsage u => [u] | _ => [] end) blocks.

End Components.

(** ** Properties *)

(** *** Arrays and strings *)

Lemma split_cons (sep : ascii) (s : string) :
  exists seg segs, JS.split sep s = seg :: segs.
Proof.
  induction s as [|c rest IH]; simpl.
  - eauto.
  - destruct (Ascii.eqb c sep); [eauto|].
    destruct IH as (seg & segs & ->). eauto.
Qed.

Lemma pop_cons {A : Type} (x : A) (arr : list A) :
  exists last, fst (JS.pop (x :: arr)) = Some last.
Proof.
  revert x. induction arr as [|y arr IH]; intros x.
  - simpl. eauto.
  - destruct (IH y) as (last & Hlast).
    change (JS.pop (x :: y :: arr))
      with (let '(l, r) := JS.pop (y :: arr) in (l, x :: r)).
    destruct (JS.pop (y :: arr)) as [l r]. simpl in *. eauto.
Qed.

Lemma pop_rest {A : Type} (arr : list A) :
  snd (JS.pop arr) = removelast arr.
Proof.
  induction arr as [|x arr IH]; [reflexivity|].
  destruct arr as [|y arr]; [reflexivity|].
  change (JS.pop (x :: y :: arr))
    with (let '(l, r) := JS.pop (y :: arr) in (l, x :: r)).
  destruct (JS.pop (y :: arr)) as [l r]. simpl in *. now rewrite IH.
Qed.

Lemma append_assoc (a b c : string) :
  ((a ++ b) ++ c = a ++ (b ++ c))%string.
Proof.
  induction a as [|x a IH]; simpl; [reflexivity|]. now rewrite IH.
Qed.

(** *** [parseUsage] *)

(** C1 (as amended).  For an item that is given, [localVar] is always
    defined: it is the join of the segments, without the last one when
    there are two or more.  [usageSymbol] is defined exactly when the
    dotted path has two segments or more. *)
Theorem parseUsage_optional_fields (url item : string) (isType : option bool) :
  let u := parseUsage url (Some item) isType in
  let parts := JS.split "." item in
  localVar u
  = Some (JS.join "."
            (if Nat.leb 2 (List.length parts) then removelast parts
             else parts))
  /\ (usageSymbol u <> None <-> 2 <= List.length parts).
Proof.
  unfold parseUsage. simpl option_map.
  destruct (split_cons "." item) as (seg & segs & Hsplit). rewrite Hsplit.
  change (Nat.ltb 1 (List.length (seg :: segs)))
    with (Nat.leb 2 (List.length (seg :: segs))).
  destruct (Nat.leb 2 (List.length (seg :: segs))) eqn:Hlen.
  - apply Nat.leb_le in Hlen.
    destruct (pop_cons seg segs) as (last & Hlast).
    pose proof (pop_rest (seg :: segs)) as Hrest.
    destruct (JS.pop (seg :: segs)) as [l r]. simpl in Hlast, Hrest.
    subst l r. cbn [localVar usageSymbol option_map].
    split; [reflexivity|]. split; [intros _; exact Hlen | discriminate].
  - apply Nat.leb_gt in Hlen. cbn [localVar usageSymbol option_map].
    split; [reflexivity|]. split; [congruence | lia].
Qed.

(** C3.  [parseUsage(url, "Foo.bar", true)]: the named type import of
    [Foo], then a blank line and the destructuring of [bar]. *)
Theorem parseUsage_Foo_bar_type (url : string) :
  let u := parseUsage url (Some "Foo.bar") (Some true) in
  importSymbol u = Some "Foo"
  /\ usageSymbol u = Some "bar"
  /\ localVar u = Some "Foo"
  /\ importStatement u
     = (("import type { Foo } from " ++ JS.dq ++ url ++ JS.dq ++ ";" ++ JS.nl)
        ++ JS.nl
        ++ ("const { bar } = Foo;" ++ JS.nl))%string.
Proof.
  unfold parseUsage. simpl. repeat split.
Qed.

Lemma newlineTerminated_nl : newlineTerminated JS.nl.
Proof. now exists EmptyString. Qed.

Lemma newlineTerminated_app (a b : string) :
  newlineTerminated b -> newlineTerminated (a ++ b)%string.
Proof.
  intros [body ->]. exists (a ++ body)%string.
  now rewrite append_assoc.
Qed.

Lemma nullish_package (parsed : option ParsedURL) :
  nullish (option_map package parsed) "mod" = packageOrMod parsed.
Proof. destruct parsed as [p|]; [destruct p as [r o [pkg|] v m]|]; reflexivity. Qed.

(** C8.  [parseUsage] returns a record for every url, every item
    (given or not) and every flag (given or not), and it raises no
    exception and leaves the world as it is, when [parseURL] and
    [camelize] return and leave the world as it is: no member access of
    its own raises.  With any [parseURL] and [camelize], an exception of
    [parseUsage] is one that [parseURL] raised, or one that [camelize]
    raised on an absent item.  In the record [importSymbol] is defined
    and [importStatement] is a newline terminated string. *)
Theorem parseUsage_total (World : Type)
    (parseURLEff : string -> Eff World (option ParsedURL))
    (camelizeEff : string -> Eff World string)
    (url : string) (item : option string) (isType : option bool)
    (w : World) :
  (forall u w', parseURLEff u w' = (Returned (parseURL u), w')) ->
  (forall s w', camelizeEff s w' = (Returned (camelize s), w')) ->
  let u := parseUsage url item isType in
  parseUsageEff World parseURLEff camelizeEff url item isType w
  = (Returned u, w)
  /\ (forall (parseURLEff' : string -> Eff World (option ParsedURL))
        (camelizeEff' : string -> Eff World string)
        (error : string) (w' : World),
        parseUsageEff World parseURLEff' camelizeEff' url item isType w
        = (Raised error, w') ->
        parseURLEff' url w = (Raised error, w')
        \/ (item = None
            /\ exists parsed w1,
                 parseURLEff' url w = (Returned parsed, w1)
                 /\ camelizeEff' (packageOrMod parsed) w1
                    = (Raised error, w')))
  /\ (exists sym, importSymbol u = Some sym)
  /\ newlineTerminated (importStatement u).
Proof.
  intros HparseURL Hcamelize. cbv zeta. split; [|split].
  - unfold parseUsageEff, bind, optional, ret. rewrite HparseURL.
    destruct item as [item|]; cbn [option_map isDefined member ret].
    + unfold parseUsage. simpl option_map. unfold ret.
      destruct (Nat.ltb 1 (List.length (JS.split "." item)));
        [destruct (JS.pop (JS.split "." item)) as [l r]|]; reflexivity.
    + rewrite nullish_package, Hcamelize. reflexivity.
  - intros parseURLEff' camelizeEff' error w'.
    unfold parseUsageEff, bind, optional, ret.
    destruct (parseURLEff' url w) as [[parsed|error0] w1] eqn:Hparsed;
      [|intros [= -> ->]; now left].
    destruct item as [item|]; cbn [option_map isDefined member ret].
    + unfold ret.
      destruct (Nat.ltb 1 (List.length (JS.split "." item))); discriminate.
    + rewrite nullish_package.
      destruct (camelizeEff' (packageOrMod parsed) w1) as [[s|error1] w2]
        eqn:Hsymbol; [discriminate|].
      intros [= -> ->]. right. split; [reflexivity|].
      exists parsed, w1. split; [reflexivity | exact Hsymbol].
  - unfold parseUsage.
    destruct item as [item|]; simpl option_map; cbv iota.
    + destruct (split_cons "." item) as (seg & segs & ->).
      destruct (Nat.ltb 1 (List.length (seg :: segs)));
        [destruct (JS.pop (seg :: segs)) as [l r]|];
        (split; [exists seg; reflexivity|]); cbn [importStatement];
        repeat match goal with
               | |- context [if ?c then _ else _] => destruct c
               end;
        repeat (first [apply newlineTerminated_nl
                      | apply newlineTerminated_app]).
    + split; [eexists; reflexivity|].
      cbn [importStatement JS.truthy].
      repeat (first [apply newlineTerminated_nl
                    | apply newlineTerminated_app]).
Qed.

(** C9.  The empty item: the symbol and the local variable are the
    empty first segment, and the statement is the namespace import,
    since the empty string is falsy. *)
Theorem parseUsage_empty_item (url : string) (isType : option bool) :
  let u := parseUsage url (Some "") isType in
  JS.split "." "" = [""]
  /\ JS.truthy (Some "") = false
  /\ importSymbol u = Some ""
  /\ localVar u = Some ""
  /\ usageSymbol u = None
  /\ importStatement u
     = ("import * as  from " ++ JS.dq ++ url ++ JS.dq ++ ";" ++ JS.nl)%string.
Proof.
  unfold parseUsage. simpl. repeat split.
Qed.

(** *** [CodeBlock], [Doc] and [DocToc] *)

Lemma codeBlockStep_app (acc : list CodeElement) (n : DocNode) :
  codeBlockStep acc n = acc ++ codeBlockStep [] n.
Proof.
  unfold codeBlockStep, JS.push.
  destruct (kind n); simpl; now rewrite ?app_nil_r.
Qed.

Lemma fold_codeBlockStep (nodes : list DocNode) (acc : list CodeElement) :
  fold_left codeBlockStep nodes acc
  = acc ++ flat_map (codeBlockStep []) nodes.
Proof.
  revert acc. induction nodes as [|n nodes IH]; intros acc; simpl.
  - now rewrite app_nil_r.
  - rewrite IH, (codeBlockStep_app acc n). now rewrite <- app_assoc.
Qed.

Lemma docStep_app (path : list string) (acc : list DocElement)
    (n : DocNode) :
  docStep path acc n = acc ++ docStep path [] n.
Proof.
  unfold docStep, JS.push.
  destruct (kind n); simpl; now rewrite ?app_nil_r.
Qed.

Lemma fold_docStep (path : list string) (nodes : list DocNode)
    (acc : list DocElement) :
  fold_left (docStep path) nodes acc
  = acc ++ flat_map (docStep path []) nodes.
Proof.
  revert acc. induction nodes as [|n nodes IH]; intros acc; simpl.
  - now rewrite app_nil_r.
  - rewrite IH, (docStep_app path acc n). now rewrite <- app_assoc.
Qed.

(** The test [fnNodes.length] against the presence of a function. *)
Lemma fnNodes_length (nodes : list DocNode) :
  negb (Nat.eqb (List.length (filter isFunction nodes)) 0)
  = existsb isFunction nodes.
Proof.
  induction nodes as [|n nodes IH]; simpl; [reflexivity|].
  destruct (isFunction n); simpl; [reflexivity | exact IH].
Qed.

Lemma own_code_blocks (nodes : list DocNode) :
  Forall2 codeBlockFor (filter hasOwnCodeBlock nodes)
    (flat_map (codeBlockStep []) nodes).
Proof.
  induction nodes as [|n nodes IH]; simpl; [constructor|].
  unfold hasOwnCodeBlock, codeBlockStep at 1, JS.push.
  destruct (kind n) eqn:Hkind; simpl; try exact IH;
    constructor; try exact IH; now constructor.
Qed.

Lemma own_code_nodes (nodes : list DocNode) :
  map codeBlockNode (flat_map (codeBlockStep []) nodes)
  = map Some (filter hasOwnCodeBlock nodes).
Proof.
  induction nodes as [|n nodes IH]; simpl; [reflexivity|].
  unfold hasOwnCodeBlock, codeBlockStep at 1, JS.push.
  destruct (kind n); simpl; now rewrite ?IH.
Qed.

Lemma own_doc_nodes (path : list string) (nodes : list DocNode) :
  map docNode (flat_map (docStep path []) nodes)
  = map Some (filter hasOwnDoc nodes).
Proof.
  induction nodes as [|n nodes IH]; simpl; [reflexivity|].
  unfold hasOwnDoc, docStep at 1, JS.push.
  destruct (kind n); simpl; now rewrite ?IH.
Qed.

Lemma filter_isFunction_kept (nodes : list DocNode) :
  keptFrom (fun n => kind n = KindFunction) nodes (filter isFunction nodes).
Proof.
  induction nodes as [|n nodes IH]; simpl; [constructor|].
  unfold isFunction at 1.
  destruct (kind n) eqn:Hkind; simpl;
    first [ apply keptFrom_keep; [exact Hkind | exact IH]
          | apply keptFrom_drop; [rewrite Hkind; discriminate | exact IH] ].
Qed.

Lemma existsb_isFunction (nodes : list DocNode) :
  existsb isFunction nodes
  = match filter isFunction nodes with [] => false | _ :: _ => true end.
Proof.
  induction nodes as [|n nodes IH]; simpl; [reflexivity|].
  destruct (isFunction n); simpl; [reflexivity | exact IH].
Qed.

(** C7.  [CodeBlock] renders one block for each class, enum,
    interface, type alias and variable node, by the renderer of its
    kind, then one merged block of the nodes of kind function, all of
    them and in their order, when there is one at least; no other node
    is rendered. *)
Theorem CodeBlock_blocks (nodes : list DocNode) :
  exists own fns,
    CodeBlock nodes
    = own ++ match fns with
             | [] => []
             | _ :: _ => [FnCodeBlock fns]
             end
    /\ Forall2 codeBlockFor (filter hasOwnCodeBlock nodes) own
    /\ keptFrom (fun n => kind n = KindFunction) nodes fns
    /\ List.length (CodeBlock nodes)
       = List.length (filter hasOwnCodeBlock nodes)
         + match fns with [] => 0 | _ :: _ => 1 end.
Proof.
  exists (flat_map (codeBlockStep []) nodes), (filter isFunction nodes).
  pose proof (own_code_blocks nodes) as Hown.
  pose proof (filter_isFunction_kept nodes) as Hfns.
  unfold CodeBlock, JS.push.
  rewrite fnNodes_length, fold_codeBlockStep, existsb_isFunction. simpl.
  destruct (filter isFunction nodes) as [|fn fns].
  - rewrite app_nil_r. repeat split; [exact Hown | exact Hfns |].
    rewrite (Forall2_length Hown). lia.
  - repeat split; [exact Hown | exact Hfns |].
    rewrite length_app, (Forall2_length Hown). reflexivity.
Qed.

(** C10.  In the output of [CodeBlock] and of [Doc] the merged
    function block, when there is one, comes last, and the blocks
    before it are those of the other rendered nodes in input order. *)
Theorem function_block_last (path : list string) (nodes : list DocNode) :
  (exists others,
     CodeBlock nodes
     = others ++ (if existsb isFunction nodes
                  then [FnCodeBlock (filter isFunction nodes)]
                  else [])
     /\ map codeBlockNode others = map Some (filter hasOwnCodeBlock nodes))
  /\ (exists others,
        Doc path nodes
        = others ++ (if existsb isFunction nodes
                     then [FnDoc (filter isFunction nodes)]
                     else [])
        /\ map docNode others = map Some (filter hasOwnDoc nodes)).
Proof.
  split.
  - exists (flat_map (codeBlockStep []) nodes).
    split; [|apply own_code_nodes].
    unfold CodeBlock, JS.push.
    rewrite fnNodes_length, fold_codeBlockStep. simpl.
    destruct (existsb isFunction nodes); now rewrite ?app_nil_r.
  - exists (flat_map (docStep path []) nodes).
    split; [|apply own_doc_nodes].
    unfold Doc, JS.push.
    rewrite fnNodes_length, fold_docStep. simpl.
    destruct (existsb isFunction nodes); now rewrite ?app_nil_r.
Qed.

Lemma kind_eqb_eq (k1 k2 : DocNodeKind) :
  kind_eqb k1 k2 = true <-> k1 = k2.
Proof.
  destruct k1, k2; simpl; split; intros H;
    first [reflexivity | discriminate].
Qed.

Lemma kind_eqb_neq (k1 k2 : DocNodeKind) :
  kind_eqb k1 k2 = false <-> k1 <> k2.
Proof.
  destruct k1, k2; simpl; split; intros H;
    first [reflexivity | discriminate | congruence].
Qed.

(** C6.  [DocToc]: nothing for no node; for one node the renderer of
    its kind, when the kind has one; for two nodes the interface
    renderer on the first interface among them, when there is one;
    nothing for more than two nodes. *)
Theorem DocToc_dispatch :
  DocToc [] = None
  /\ (forall n,
        (kind n = KindClass -> DocToc [n] = Some (ClassToc n))
        /\ (kind n = KindEnum -> DocToc [n] = Some (EnumToc n))
        /\ (kind n = KindInterface -> DocToc [n] = Some (InterfaceToc n))
        /\ (kind n = KindNamespace -> DocToc [n] = Some (NamespaceToc n))
        /\ (kind n = KindTypeAlias -> DocToc [n] = Some (TypeAliasToc n))
        /\ (~ In (kind n)
              [KindClass; KindEnum; KindInterface; KindNamespace;
               KindTypeAlias] ->
            DocToc [n] = None))
  /\ (forall a b,
        (kind a = KindInterface -> DocToc [a; b] = Some (InterfaceToc a))
        /\ (kind a <> KindInterface -> kind b = KindInterface ->
            DocToc [a; b] = Some (InterfaceToc b))
        /\ (kind a <> KindInterface -> kind b <> KindInterface ->
            DocToc [a; b] = None))
  /\ (forall nodes, 2 < List.length nodes -> DocToc nodes = None).
Proof using.
  split; [reflexivity|]. split; [|split].
  - intros n. unfold DocToc, tocOf. simpl.
    repeat split; intros H; try (now rewrite H).
    destruct (kind n); try reflexivity; exfalso; apply H; simpl;
      repeat (first [left; reflexivity | right]).
  - intros a b. unfold DocToc, JS.find. simpl.
    repeat split.
    + intros Ha. rewrite Ha. simpl. unfold tocOf. now rewrite Ha.
    + intros Ha Hb. apply kind_eqb_neq in Ha. rewrite Ha, Hb. simpl.
      unfold tocOf. now rewrite Hb.
    + intros Ha Hb. apply kind_eqb_neq in Ha, Hb. now rewrite Ha, Hb.
  - intros nodes Hlen. unfold DocToc.
    destruct nodes as [|a [|b [|c nodes]]]; simpl in Hlen; try lia.
    reflexivity.
Qed.

(** *** Namespace resolution *)

Lemma resolvePath_app (entries : list DocNode) (pre post : list string) :
  resolvePath entries (pre ++ post)
  = fold_left resolveStep post (resolvePath entries pre).
Proof. unfold resolvePath. apply fold_left_app. Qed.

Lemma resolveStep_unresolved (acc : list DocNode * list DocNode)
    (nm : string) :
  JS.find (isNamespaceNamed nm) (fst acc) = None ->
  resolveStep acc nm = acc.
Proof.
  destruct acc as [es nss]. simpl. intros ->. reflexivity.
Qed.

Lemma resolve_all_unresolved (acc : list DocNode * list DocNode)
    (post : list string) :
  Forall (fun q => JS.find (isNamespaceNamed q) (fst acc) = None) post ->
  fold_left resolveStep post acc = acc.
Proof.
  induction 1 as [|q post Hq _ IH]; simpl; [reflexivity|].
  now rewrite (resolveStep_unresolved acc q Hq).
Qed.

Lemma fst_resolveItem (state : StoreState) (item : string) :
  fst (resolveItem state item)
  = fst (resolvePath (entries state) (snd (JS.pop (JS.split "." item)))).
Proof.
  unfold resolveItem.
  destruct (JS.pop (JS.split "." item)) as [nm path]. simpl.
  destruct path as [|seg path]; [reflexivity|].
  cbn [List.length Nat.eqb negb].
  now destruct (resolvePath (entries state) (seg :: path)).
Qed.

Lemma isNamespaceNamed_spec (nm : string) (n : DocNode) :
  isNamespaceNamed nm n = true <-> namesNamespace nm n.
Proof.
  unfold isNamespaceNamed, namesNamespace.
  now rewrite andb_true_iff, kind_eqb_eq, String.eqb_eq.
Qed.

Lemma find_none_noNamespace (nm : string) (es : list DocNode) :
  JS.find (isNamespaceNamed nm) es = None <-> noNamespace nm es.
Proof.
  unfold JS.find, noNamespace. induction es as [|e es IH]; simpl.
  - split; [constructor | reflexivity].
  - destruct (isNamespaceNamed nm e) eqn:He.
    + split; [discriminate|]. intros H. inversion H; subst.
      apply isNamespaceNamed_spec in He. contradiction.
    + rewrite IH. split.
      * intros H. constructor; [|exact H].
        intros Hns. apply isNamespaceNamed_spec in Hns. congruence.
      * intros H. now inversion H.
Qed.

Lemma find_some_firstNamespace (nm : string) (es : list DocNode)
    (ns : DocNode) :
  JS.find (isNamespaceNamed nm) es = Some ns -> firstNamespace nm es ns.
Proof.
  unfold JS.find, firstNamespace, noNamespace.
  induction es as [|e es IH]; simpl; [discriminate|].
  destruct (isNamespaceNamed nm e) eqn:He.
  - intros [= ->]. exists [], es.
    split; [reflexivity|]. split; [now apply isNamespaceNamed_spec|].
    constructor.
  - intros Hfind. destruct (IH Hfind) as (before & after & -> & Hns & Hno).
    exists (e :: before), after.
    split; [reflexivity|]. split; [exact Hns|]. constructor; [|exact Hno].
    intros H. apply isNamespaceNamed_spec in H. congruence.
Qed.

(** The loop of [DocPage], against the resolution as it is worded. *)
Lemma resolves_fold (path : list string) (es trail : list DocNode) :
  resolves es trail path
    (fst (fold_left resolveStep path (es, trail)))
    (snd (fold_left resolveStep path (es, trail))).
Proof.
  revert es trail. induction path as [|nm path IH]; intros es trail.
  - constructor.
  - simpl. destruct (JS.find (isNamespaceNamed nm) es) as [ns|] eqn:Hfind.
    + apply (resolves_enter es trail nm path ns);
        [exact (find_some_firstNamespace nm es ns Hfind)|].
      apply IH.
    + apply resolves_pass; [|apply IH].
      exact (proj1 (find_none_noNamespace nm es) Hfind).
Qed.

Lemma defSize_elements (elements : list DocNode) :
  defSize (NamespaceDef elements) = listSize elements.
Proof.
  induction elements as [|n rest IH]; [reflexivity|].
  simpl in *. now rewrite IH.
Qed.

Lemma elements_smaller (n : DocNode) :
  listSize (namespaceDef_elements n) < nodeSize n.
Proof.
  destruct n as [nm js d]. unfold namespaceDef_elements. cbn [def nodeSize].
  destruct d; try (simpl; lia).
  rewrite defSize_elements. lia.
Qed.

Lemma member_smaller (n : DocNode) (es : list DocNode) :
  In n es -> nodeSize n <= listSize es.
Proof.
  induction es as [|e es IH]; simpl; [contradiction|].
  intros [->|Hin]; [lia|]. specialize (IH Hin). lia.
Qed.

Lemma resolveStep_size (acc : list DocNode * list DocNode) (nm : string) :
  match JS.find (isNamespaceNamed nm) (fst acc) with
  | Some _ => listSize (fst (resolveStep acc nm)) < listSize (fst acc)
  | None => resolveStep acc nm = acc
  end.
Proof.
  destruct acc as [es trail]. simpl.
  destruct (JS.find (isNamespaceNamed nm) es) as [ns|] eqn:Hfind;
    [|reflexivity].
  simpl. apply find_some in Hfind. destruct Hfind as [Hin _].
  pose proof (elements_smaller ns). pose proof (member_smaller ns es Hin).
  lia.
Qed.

Lemma fold_resolveStep_size (path : list string)
    (acc : list DocNode * list DocNode) :
  listSize (fst (fold_left resolveStep path acc)) <= listSize (fst acc).
Proof.
  revert acc. induction path as [|nm path IH]; intros acc; simpl; [lia|].
  specialize (IH (resolveStep acc nm)).
  pose proof (resolveStep_size acc nm) as Hstep.
  destruct (JS.find (isNamespaceNamed nm) (fst acc)); [lia|].
  now rewrite Hstep in *.
Qed.

(** A list that the loop ends on is the one it started from only when
    no segment was resolved. *)
Lemma fold_resolveStep_same (path : list string)
    (acc : list DocNode * list DocNode) :
  fst (fold_left resolveStep path acc) = fst acc ->
  Forall (fun q => noNamespace q (fst acc)) path.
Proof.
  revert acc. induction path as [|nm path IH]; intros acc; simpl;
    [constructor|].
  intros Hsame.
  pose proof (resolveStep_size acc nm) as Hstep.
  pose proof (fold_resolveStep_size path (resolveStep acc nm)) as Hle.
  destruct (JS.find (isNamespaceNamed nm) (fst acc)) eqn:Hfind.
  - rewrite Hsame in Hle. lia.
  - rewrite Hstep in Hsame. constructor; [|now apply IH].
    now apply find_none_noNamespace.
Qed.

Lemma resolve_none_resolved (acc : list DocNode * list DocNode)
    (post : list string) :
  Forall (fun q => noNamespace q (fst acc)) post ->
  fold_left resolveStep post acc = acc.
Proof.
  intros Hpost. apply resolve_all_unresolved.
  eapply Forall_impl; [|exact Hpost].
  intros q Hq. now apply find_none_noNamespace.
Qed.

(** C2 (as amended).  A preceding segment that names no namespace of
    the current entry list is skipped: the list and the trail stay as
    they are.  The segments after it are still resolved, from the list
    reached before it, each one in the list that is current then, the
    first namespace that it names there being entered.  The final lookup
    uses the list that this ends on, which is the list reached before
    the skipped segment exactly when none of the later segments names a
    namespace of that list. *)
Theorem resolution_skips_unresolved (state : StoreState) (item : string)
    (pre post : list string) (nm : string) :
  snd (JS.pop (JS.split "." item)) = pre ++ nm :: post ->
  noNamespace nm (fst (resolvePath (entries state) pre)) ->
  let reached := resolvePath (entries state) pre in
  let final := resolvePath (entries state) (pre ++ nm :: post) in
  resolves (entries state) [] pre (fst reached) (snd reached)
  /\ resolvePath (entries state) (pre ++ [nm]) = reached
  /\ resolves (fst reached) (snd reached) post (fst final) (snd final)
  /\ final = fold_left resolveStep post reached
  /\ fst (resolveItem state item) = fst final
  /\ namespaces (snd (resolveItem state item)) = Some (snd final)
  /\ (forall e,
        In e (targetNodes state item)
        <-> In e (fst final)
            /\ Some (name e) = fst (JS.pop (JS.split "." item))
            /\ kind e <> KindImport)
  /\ targetNodes state item
     = filter (isTarget (fst (JS.pop (JS.split "." item)))) (fst final)
  /\ (fst final = fst reached
      <-> Forall (fun q => noNamespace q (fst reached)) post).
Proof.
  intros Hpath Hnm reached final.
  assert (Hfind : JS.find (isNamespaceNamed nm)
                    (fst (resolvePath (entries state) pre)) = None)
    by now apply find_none_noNamespace.
  assert (Hskip : final = fold_left resolveStep post reached).
  { unfold final, reached. rewrite resolvePath_app. simpl.
    now rewrite (resolveStep_unresolved _ nm Hfind). }
  assert (Hfinal : fst (resolveItem state item) = fst final).
  { now rewrite fst_resolveItem, Hpath. }
  assert (Htarget : targetNodes state item
                    = filter (isTarget (fst (JS.pop (JS.split "." item))))
                        (fst final)).
  { unfold targetNodes.
    destruct (JS.pop (JS.split "." item)) as [last path].
    now rewrite Hfinal. }
  split; [|split; [|split; [|split; [|split; [|split; [|split; [|split]]]]]]].
  - apply (resolves_fold pre (entries state) []).
  - unfold reached. rewrite resolvePath_app. simpl.
    now rewrite (resolveStep_unresolved _ nm Hfind).
  - rewrite Hskip. destruct reached as [es trail]. apply resolves_fold.
  - exact Hskip.
  - exact Hfinal.
  - unfold resolveItem. fold final.
    destruct (JS.pop (JS.split "." item)) as [last path].
    simpl in Hpath. subst path.
    destruct (pre ++ nm :: post) as [|x xs] eqn:Hne;
      [now destruct pre|].
    cbn [List.length Nat.eqb negb].
    unfold final. now destruct (resolvePath (entries state) (x :: xs)).
  - intros e. rewrite Htarget, filter_In.
    destruct (fst (JS.pop (JS.split "." item))) as [last|]; simpl.
    + rewrite andb_true_iff, negb_true_iff, String.eqb_eq, kind_eqb_neq.
      split; intros (Hin & Hname & Hkind); repeat split; congruence.
    + split; [intros [_ H]; discriminate | intros (_ & H & _); discriminate].
  - exact Htarget.
  - rewrite Hskip. split.
    + apply fold_resolveStep_same.
    + intros Hpost. now rewrite (resolve_none_resolved reached post Hpost).
Qed.

(** *** The pages *)

Lemma flat_map_nil {A B : Type} (f : A -> list B) (l : list A) :
  (forall x, f x = []) -> flat_map f l = [].
Proof.
  intros Hf. induction l as [|x l IH]; simpl; [reflexivity|].
  now rewrite Hf, IH.
Qed.

Lemma collect_children {A : Type} (pick : Element -> list A)
    (children : list Element) :
  flat_map pick (flat_map nodesOf children)
  = flat_map (collect pick) children.
Proof.
  induction children as [|c children IH]; simpl; [reflexivity|].
  now rewrite flat_map_app, IH.
Qed.

Lemma collect_EHtml {A : Type} (pick : Element -> list A) (tag : string)
    (children : list Element) :
  collect pick (EHtml tag children)
  = pick (EHtml tag children) ++ flat_map (collect pick) children.
Proof. unfold collect at 1. simpl. now rewrite collect_children. Qed.

Lemma collect_map_ECode {A : Type} (pick : Element -> list A)
    (blocks : list CodeElement) :
  flat_map (collect pick) (map ECode blocks)
  = flat_map (fun b => pick (ECode b)) blocks.
Proof.
  induction blocks as [|b blocks IH]; simpl; [reflexivity|].
  rewrite IH. unfold collect at 1. simpl. now rewrite app_nil_r.
Qed.

Lemma collect_map_EDoc {A : Type} (pick : Element -> list A)
    (sections : list DocElement) :
  flat_map (collect pick) (map EDoc sections)
  = flat_map (fun d => pick (EDoc d)) sections.
Proof.
  induction sections as [|d sections IH]; simpl; [reflexivity|].
  rewrite IH. unfold collect at 1. simpl. now rewrite app_nil_r.
Qed.

Lemma itemPage_missing (base : string) (state : StoreState)
    (item : string) :
  targetNodes state item = [] ->
  fst (itemPage base state item) = notFoundPage item (url state).
Proof.
  intros Hnodes. unfold itemPage.
  destruct (JS.pop (JS.split "." item)) as [last path].
  destruct (resolveItem state item) as [es state'].
  now rewrite Hnodes.
Qed.

Lemma itemPage_found (base : string) (state : StoreState) (item : string)
    (first : DocNode) (rest : list DocNode) :
  targetNodes state item = first :: rest ->
  let nodes := first :: rest in
  let url := url state in
  fst (itemPage base state item)
  = EHtml "div"
      [ EDocMeta base url (docOrEmpty (firstJsDoc nodes)) (Some item);
        EHtml "nav" (ESideBarHeader url :: tocChild (DocToc nodes));
        EHtml "article"
          (EHtml "h1" [EText item]
           :: when (negb (JS.endsWith url ".d.ts"
                          || JS.startsWith url "deno/"))
                (EUsage url (Some item) (Some (isTypeOnly nodes)))
           ++ when (isAbstract first) (ETag "yellow" [EText "abstract"])
           ++ when (isDeprecated (firstJsDoc nodes))
                (ETag "gray" [EText "deprecated"])
           ++ EJsDoc ["deprecated"] (firstJsDoc nodes)
           :: map ECode (CodeBlock nodes)
           ++ map EDoc
                (Doc (snd (JS.pop (JS.split "." item))) nodes)) ].
Proof.
  intros Hnodes. unfold itemPage.
  destruct (JS.pop (JS.split "." item)) as [last path].
  destruct (resolveItem state item) as [es state'].
  now rewrite Hnodes.
Qed.

(** What [pick] finds in an item page, when it selects nothing among
    the fixed parts of the page. *)
Lemma collect_item_page {A : Type} (pick : Element -> list A)
    (meta : Element) (nav : Element) (toc : option TocElement)
    (title : Element) (usage : bool) (u : Element) (abstract : bool)
    (ta : Element) (deprecated : bool) (td : Element) (js : Element)
    (code : list CodeElement) (sections : list DocElement) :
  (forall tag cs, pick (EHtml tag cs) = []) ->
  collect pick meta = [] -> collect pick nav = [] ->
  (forall t, collect pick (EToc t) = []) ->
  collect pick title = [] -> collect pick ta = [] ->
  collect pick td = [] -> collect pick js = [] ->
  collect pick
    (EHtml "div"
       [ meta; EHtml "nav" (nav :: tocChild toc);
         EHtml "article"
           (title :: when usage u ++ when abstract ta ++ when deprecated td
            ++ js :: map ECode code ++ map EDoc sections) ])
  = (if usage then collect pick u else [])
    ++ flat_map (fun b => pick (ECode b)) code
    ++ flat_map (fun d => pick (EDoc d)) sections.
Proof.
  intros Hhtml Hmeta Hnav Htoc Htitle Hta Htd Hjs.
  rewrite !collect_EHtml, !Hhtml. simpl.
  rewrite !collect_EHtml, !Hhtml, Hmeta. simpl.
  rewrite Hnav, Htitle. simpl.
  assert (Htocs : flat_map (collect pick) (tocChild toc) = []).
  { destruct toc; simpl; [now rewrite Htoc|reflexivity]. }
  rewrite Htocs, app_nil_r. simpl.
  rewrite !flat_map_app. simpl.
  rewrite !flat_map_app, collect_map_ECode, collect_map_EDoc, Hjs. simpl.
  destruct usage, abstract, deprecated; simpl;
    now rewrite ?Hta, ?Htd, ?app_nil_r.
Qed.

Lemma flat_map_singleton {A : Type} (l : list A) :
  flat_map (fun x => [x]) l = l.
Proof. induction l as [|x l IH]; simpl; [reflexivity | now rewrite IH]. Qed.

(** The code blocks of an item page are those of [CodeBlock]. *)
Lemma codeBlocksOf_found (base : string) (state : StoreState)
    (item : string) (first : DocNode) (rest : list DocNode) :
  targetNodes state item = first :: rest ->
  codeBlocksOf (fst (itemPage base state item)) = CodeBlock (first :: rest).
Proof.
  intros Hnodes. rewrite (itemPage_found base state item first rest Hnodes).
  unfold codeBlocksOf. rewrite collect_item_page; try reflexivity.
  rewrite (flat_map_nil (fun d => pickCode (EDoc d))) by reflexivity.
  rewrite app_nil_r.
  change (fun b => pickCode (ECode b)) with (fun b : CodeElement => [b]).
  rewrite flat_map_singleton. now destruct (negb _).
Qed.

Lemma truthy_nonempty (item : string) :
  item <> "" -> JS.truthy (Some item) = true.
Proof.
  intros Hitem. unfold JS.truthy.
  destruct (String.eqb_spec item ""); [contradiction | reflexivity].
Qed.

Lemma errorMessagesOf_modulePage (base : string) (state : StoreState) :
  errorMessagesOf (fst (modulePage base state)) = [].
Proof. reflexivity. Qed.

Lemma errorMessagesOf_found (base : string) (state : StoreState)
    (item : string) (first : DocNode) (rest : list DocNode) :
  targetNodes state item = first :: rest ->
  errorMessagesOf (fst (itemPage base state item)) = [].
Proof.
  intros Hnodes. rewrite (itemPage_found base state item first rest Hnodes).
  unfold errorMessagesOf. rewrite collect_item_page; try reflexivity.
  rewrite !flat_map_nil by reflexivity. now destruct (negb _).
Qed.

(** C4.  When no entry of the resolved list is a target, the page is
    the "Entry not found" panel, whose message carries the item and
    the url and which holds no code block and no doc block; no other
    page holds an error message. *)
Theorem DocPage_entry_not_found (base : string) (state : StoreState)
    (children : option string) :
  let page := fst (DocPage base state children) in
  (forall item,
     children = Some item -> item <> "" -> targetNodes state item = [] ->
     page = notFoundPage item (url state)
     /\ errorMessagesOf page
        = [ ("Entry not found",
             [ EText ("The document entry named " ++ JS.dq)%string;
               EText item;
               EText (JS.dq ++ " was not found in specifier " ++ JS.dq)%string;
               EText (url state);
               EText (JS.dq ++ ".")%string ]) ]
     /\ codeBlocksOf page = []
     /\ docBlocksOf page = [])
  /\ (errorMessagesOf page <> [] ->
      exists item,
        children = Some item /\ item <> "" /\ targetNodes state item = []).
Proof.
  split.
  - intros item -> Hitem Hnodes. unfold DocPage.
    rewrite (truthy_nonempty item Hitem), (itemPage_missing _ _ _ Hnodes).
    repeat split.
  - destruct children as [item|]; unfold DocPage;
      [|now rewrite errorMessagesOf_modulePage].
    destruct (String.eqb_spec item "") as [->|Hitem].
    { change (JS.truthy (Some "")) with false. cbv iota.
      now rewrite errorMessagesOf_modulePage. }
    rewrite (truthy_nonempty item Hitem).
    destruct (targetNodes state item) as [|first rest] eqn:Hnodes.
    + intros _. now exists item.
    + now rewrite (errorMessagesOf_found base state item first rest Hnodes).
Qed.

Lemma isTypeOnly_Forall (nodes : list DocNode) :
  isTypeOnly nodes = true
  <-> Forall (fun n => kind n = KindInterface \/ kind n = KindTypeAlias)
        nodes.
Proof.
  unfold isTypeOnly. rewrite forallb_forall, Forall_forall.
  split; intros H n Hn; specialize (H n Hn).
  - apply orb_true_iff in H. now rewrite !kind_eqb_eq in H.
  - apply orb_true_iff. now rewrite !kind_eqb_eq.
Qed.

Lemma importStatement_type (url item : string) (isType : bool) :
  item <> "" ->
  JS.startsWith (importStatement (parseUsage url (Some item) (Some isType)))
    "import type "
  = isType.
Proof.
  intros Hitem. unfold parseUsage. simpl option_map. cbv iota.
  rewrite (truthy_nonempty item Hitem).
  destruct (split_cons "." item) as (seg & segs & ->).
  destruct (Nat.ltb 1 (List.length (seg :: segs)));
    [destruct (JS.pop (seg :: segs)) as [l r]|];
    cbn [importStatement];
    repeat match goal with
           | |- context [if JS.truthy ?v then _ else _] =>
               destruct (JS.truthy v)
           end;
    destruct isType; reflexivity.
Qed.

(** C5.  On an item page the usage block is there exactly when the
    url has no [.d.ts] suffix and no [deno/] prefix, and it is a type
    import exactly when every target node is an interface or a type
    alias. *)
Theorem DocPage_usage_block (base : string) (state : StoreState)
    (item : string) (first : DocNode) (rest : list DocNode) :
  item <> "" ->
  targetNodes state item = first :: rest ->
  let nodes := first :: rest in
  let page := fst (DocPage base state (Some item)) in
  (usageBlocksOf page <> []
   <-> JS.endsWith (url state) ".d.ts" = false
       /\ JS.startsWith (url state) "deno/" = false)
  /\ (forall u,
        In u (usageBlocksOf page) ->
        exists isType,
          u = (url state, Some item, Some isType)
          /\ (isType = true
              <-> Forall
                    (fun n =>
                       kind n = KindInterface \/ kind n = KindTypeAlias)
                    nodes)
          /\ JS.startsWith
               (importStatement
                  (parseUsage (url state) (Some item) (Some isType)))
               "import type "
             = isType).
Proof.
  intros Hitem Hnodes nodes page.
  assert (Hpage : usageBlocksOf page
                  = if negb (JS.endsWith (url state) ".d.ts"
                             || JS.startsWith (url state) "deno/")
                    then [(url state, Some item, Some (isTypeOnly nodes))]
                    else []).
  { unfold page, DocPage. rewrite (truthy_nonempty item Hitem).
    rewrite (itemPage_found base state item first rest Hnodes).
    unfold usageBlocksOf. rewrite collect_item_page; try reflexivity.
    rewrite !flat_map_nil by reflexivity. destruct (negb _); reflexivity. }
  rewrite Hpage. split.
  - destruct (JS.endsWith (url state) ".d.ts"),
      (JS.startsWith (url state) "deno/"); simpl;
      split; try tauto; try discriminate; intros [? ?]; discriminate.
  - intros u Hu. destruct (negb _); [|contradiction].
    destruct Hu as [<-|[]]. exists (isTypeOnly nodes).
    split; [reflexivity|]. split; [apply isTypeOnly_Forall|].
    now apply importStatement_type.
Qed.

(** ** Further properties *)

(** *** Splitting and joining *)

Lemma concat_cons (sep x : string) (y : string) (l : list string) :
  String.concat sep (x :: y :: l)
  = (x ++ sep ++ String.concat sep (y :: l))%string.
Proof. reflexivity. Qed.

Lemma join_split (sep : ascii) (s : string) :
  JS.join (String sep EmptyString) (JS.split sep s) = s.
Proof.
  unfold JS.join. induction s as [|c rest IH]; [reflexivity|].
  cbn [JS.split]. destruct (Ascii.eqb_spec c sep) as [->|Hc].
  - destruct (split_cons sep rest) as (seg & segs & Hsplit).
    rewrite Hsplit in *. rewrite concat_cons, IH. reflexivity.
  - destruct (split_cons sep rest) as (seg & segs & Hsplit).
    rewrite Hsplit in *. destruct segs as [|seg' segs].
    + simpl in *. now rewrite IH.
    + rewrite <- IH. reflexivity.
Qed.

Lemma split_app (sep : ascii) (a b : string) :
  JS.split sep (a ++ String sep b)%string = JS.split sep a ++ JS.split sep b.
Proof.
  induction a as [|c a IH]; simpl.
  - now rewrite Ascii.eqb_refl.
  - destruct (Ascii.eqb c sep); [now rewrite IH|].
    rewrite IH. destruct (split_cons sep a) as (seg & segs & ->).
    reflexivity.
Qed.

Lemma split_whole (sep : ascii) (s : string) :
  contains sep s = false -> JS.split sep s = [s].
Proof.
  induction s as [|c s IH]; simpl; [reflexivity|].
  intros H. apply orb_false_iff in H. destruct H as [Hc Hs].
  now rewrite Hc, (IH Hs).
Qed.

Lemma split_segments (sep : ascii) (s : string) :
  Forall (fun seg => contains sep seg = false) (JS.split sep s).
Proof.
  induction s as [|c s IH]; simpl.
  - now repeat constructor.
  - destruct (Ascii.eqb c sep) eqn:Hc; [now constructor|].
    destruct (JS.split sep s) as [|seg segs]; [now repeat constructor; simpl; rewrite Hc|].
    inversion IH; subst. constructor; [simpl; now rewrite Hc|assumption].
Qed.

Lemma split_length (sep : ascii) (s : string) :
  contains sep s = Nat.leb 2 (List.length (JS.split sep s)).
Proof.
  induction s as [|c s IH]; simpl; [reflexivity|].
  destruct (Ascii.eqb c sep); simpl.
  - destruct (split_cons sep s) as (seg & segs & ->). reflexivity.
  - rewrite IH. destruct (split_cons sep s) as (seg & segs & ->). reflexivity.
Qed.

Lemma pop_snoc {A : Type} (arr : list A) (x : A) :
  JS.pop (arr ++ [x]) = (Some x, arr).
Proof.
  induction arr as [|y arr IH]; [reflexivity|].
  simpl. destruct (arr ++ [x]) as [|z rest] eqn:Happ.
  - now destruct arr.
  - now rewrite IH.
Qed.

Lemma snoc_removelast {A : Type} (x : A) (arr : list A) :
  exists front last, x :: arr = front ++ [last].
Proof.
  destruct (exists_last (l := x :: arr)) as (front & last & H);
    [discriminate | eauto].
Qed.

Lemma concat_snoc (sep x : string) (l : list string) :
  l <> [] ->
  String.concat sep (l ++ [x]) = (String.concat sep l ++ sep ++ x)%string.
Proof.
  induction l as [|y l IH]; [congruence|]. intros _.
  destruct l as [|z l]; [reflexivity|].
  change ((y :: z :: l) ++ [x]) with (y :: ((z :: l) ++ [x])).
  simpl app at 1.
  rewrite concat_cons.
  change (z :: l ++ [x]) with ((z :: l) ++ [x]).
  rewrite IH by discriminate.
  rewrite concat_cons, !append_assoc. reflexivity.
Qed.

Lemma item_decompose (item : string) :
  contains "." item = true ->
  exists prefix last,
    item = (prefix ++ "." ++ last)%string /\ contains "." last = false.
Proof.
  intros Hdot. rewrite split_length in Hdot. apply Nat.leb_le in Hdot.
  pose proof (join_split "." item) as Hjoin.
  pose proof (split_segments "." item) as Hsegs.
  destruct (split_cons "." item) as (seg & segs & Hsplit).
  rewrite Hsplit in *.
  destruct (snoc_removelast seg segs) as (front & last & Hfront).
  rewrite Hfront in *. unfold JS.join in Hjoin.
  assert (Hne : front <> []).
  { destruct front; [simpl in Hdot; lia | discriminate]. }
  rewrite (concat_snoc _ _ _ Hne) in Hjoin.
  exists (String.concat "." front), last. split; [now symmetry|].
  apply Forall_app in Hsegs. destruct Hsegs as [_ Hlast].
  now inversion Hlast.
Qed.

Lemma append_nonempty (a b : string) (c : ascii) :
  (a ++ String c b)%string <> "".
Proof. destruct a; discriminate. Qed.

(** *** More on [parseUsage] *)

(** The named import line of an item whose first segment is [sym]. *)
Lemma parseUsage_undotted (url item : string) (isType : option bool) :
  contains "." item = false ->
  let u := parseUsage url (Some item) isType in
  importSymbol u = Some item
  /\ usageSymbol u = None
  /\ localVar u = Some item.
Proof.
  intros Hdot. unfold parseUsage. simpl option_map.
  rewrite (split_whole "." item Hdot). simpl. repeat split.
Qed.

Lemma parseUsage_dotted (url prefix last : string) (isType : option bool) :
  contains "." last = false ->
  let u := parseUsage url (Some (prefix ++ "." ++ last)%string) isType in
  let line :=
    ("import " ++ (if JS.truthyb isType then "type " else "")
     ++ "{ " ++ JS.interp (nth_error (JS.split "." prefix) 0) ++ " } from "
     ++ JS.dq ++ url ++ JS.dq ++ ";" ++ JS.nl)%string in
  importSymbol u = nth_error (JS.split "." prefix) 0
  /\ usageSymbol u = Some last
  /\ localVar u = Some prefix
  /\ importStatement u
     = if JS.truthy (Some last)
       then (line ++ JS.nl ++ "const { " ++ last ++ " } = " ++ prefix
             ++ ";" ++ JS.nl)%string
       else line.
Proof.
  intros Hlast. unfold parseUsage. simpl option_map.
  change (prefix ++ "." ++ last)%string with (prefix ++ String "." last)%string.
  rewrite (truthy_nonempty _ (append_nonempty prefix last ".")).
  rewrite split_app, (split_whole "." last Hlast).
  destruct (split_cons "." prefix) as (seg & segs & Hsplit).
  pose proof (join_split "." prefix) as Hjoin. rewrite Hsplit in *.
  replace (Nat.ltb 1 (List.length ((seg :: segs) ++ [last]))) with true
    by (rewrite length_app; simpl; symmetry; apply Nat.ltb_lt; lia).
  rewrite pop_snoc. cbn [option_map localVar usageSymbol importSymbol
                          importStatement].
  rewrite Hjoin. repeat split.
Qed.

(** X1.  The fields of a dotted item put the item back together: it is
    [localVar], a dot and [usageSymbol]; on an item without a dot
    [localVar] is the item. *)
Theorem parseUsage_reassembles_item (url item : string)
    (isType : option bool) :
  let u := parseUsage url (Some item) isType in
  match usageSymbol u with
  | Some symbol =>
      exists var, localVar u = Some var
                  /\ item = (var ++ "." ++ symbol)%string
  | None => localVar u = Some item
  end.
Proof.
  cbv zeta. destruct (contains "." item) eqn:Hdot.
  - destruct (item_decompose item Hdot) as (prefix & last & -> & Hlast).
    destruct (parseUsage_dotted url prefix last isType Hlast)
      as (_ & -> & Hvar & _).
    now exists prefix.
  - destruct (parseUsage_undotted url item isType Hdot) as (_ & -> & Hvar).
    exact Hvar.
Qed.

(** X2.  The imported symbol of a given item is its first segment: it
    holds no dot, and the item is that symbol alone or that symbol
    followed by a dot. *)
Theorem parseUsage_importSymbol_first_segment (url item : string)
    (isType : option bool) :
  exists symbol,
    importSymbol (parseUsage url (Some item) isType) = Some symbol
    /\ contains "." symbol = false
    /\ (item = symbol
        \/ exists rest, item = (symbol ++ "." ++ rest)%string).
Proof.
  unfold parseUsage. simpl option_map.
  pose proof (join_split "." item) as Hjoin.
  pose proof (split_segments "." item) as Hsegs.
  destruct (split_cons "." item) as (seg & segs & Hsplit).
  rewrite Hsplit in *. exists seg.
  split; [now destruct (Nat.ltb _ _); [destruct (JS.pop _)|]|].
  split; [now inversion Hsegs|].
  unfold JS.join in Hjoin. destruct segs as [|seg' segs].
  - left. now symmetry.
  - right. exists (String.concat "." (seg' :: segs)). now symmetry.
Qed.


(** X4.  An item that ends with a dot has the empty [usageSymbol]: the
    symbol is defined, yet no destructuring line follows the import. *)
Theorem parseUsage_trailing_dot (url prefix : string) (isType : option bool) :
  let u := parseUsage url (Some (prefix ++ ".")%string) isType in
  usageSymbol u = Some ""
  /\ localVar u = Some prefix
  /\ importStatement u
     = ("import " ++ (if JS.truthyb isType then "type " else "")
        ++ "{ " ++ JS.interp (importSymbol u) ++ " } from "
        ++ JS.dq ++ url ++ JS.dq ++ ";" ++ JS.nl)%string.
Proof.
  destruct (parseUsage_dotted url prefix "" isType eq_refl)
    as (Hsym & Hus & Hvar & Hst).
  cbv zeta. change (prefix ++ ".")%string with (prefix ++ "." ++ "")%string.
  rewrite Hsym. repeat split; assumption.
Qed.

(** X5.  An item [prefix.last], where [last] is a non-empty name without
    a dot: [last] is destructured out of [prefix], whatever the number
    of segments of [prefix], and the first segment of [prefix] is the
    one imported. *)
Theorem parseUsage_destructures_last (url prefix last : string)
    (isType : option bool) :
  contains "." last = false ->
  last <> "" ->
  let u := parseUsage url (Some (prefix ++ "." ++ last)%string) isType in
  importSymbol u = nth_error (JS.split "." prefix) 0
  /\ usageSymbol u = Some last
  /\ localVar u = Some prefix
  /\ importStatement u
     = ("import " ++ (if JS.truthyb isType then "type " else "")
        ++ "{ " ++ JS.interp (importSymbol u) ++ " } from "
        ++ JS.dq ++ url ++ JS.dq ++ ";" ++ JS.nl ++ JS.nl
        ++ "const { " ++ last ++ " } = " ++ prefix ++ ";" ++ JS.nl)%string.
Proof.
  intros Hdot Hlast.
  destruct (parseUsage_dotted url prefix last isType Hdot)
    as (Hsym & Hus & Hvar & Hst).
  cbv zeta. rewrite Hsym. repeat split; try assumption.
  rewrite Hst, (truthy_nonempty last Hlast).
  rewrite !append_assoc. reflexivity.
Qed.

(** *** More on the dispatchers *)

Lemma own_docs (path : list string) (nodes : list DocNode) :
  Forall2 (docFor path) (filter hasOwnDoc nodes)
    (flat_map (docStep path []) nodes).
Proof.
  induction nodes as [|n nodes IH]; simpl; [constructor|].
  unfold hasOwnDoc, docStep at 1, JS.push.
  destruct (kind n) eqn:Hkind; simpl; try exact IH;
    constructor; try exact IH; now constructor.
Qed.

Lemma CodeBlock_split (nodes : list DocNode) :
  CodeBlock nodes
  = flat_map (codeBlockStep []) nodes
    ++ (if existsb isFunction nodes
        then [FnCodeBlock (filter isFunction nodes)] else []).
Proof.
  unfold CodeBlock, JS.push.
  rewrite fnNodes_length, fold_codeBlockStep. simpl.
  destruct (existsb isFunction nodes); now rewrite ?app_nil_r.
Qed.

Lemma Doc_split (path : list string) (nodes : list DocNode) :
  Doc path nodes
  = flat_map (docStep path []) nodes
    ++ (if existsb isFunction nodes
        then [FnDoc (filter isFunction nodes)] else []).
Proof.
  unfold Doc, JS.push.
  rewrite fnNodes_length, fold_docStep. simpl.
  destruct (existsb isFunction nodes); now rewrite ?app_nil_r.
Qed.

(** X6.  [Doc] renders one section for each class, enum, interface,
    namespace and type alias node, by the renderer of its kind (the
    namespace one with the path), then one merged section of the nodes
    of kind function, all of them and in their order, when there is one
    at least; variables get no section. *)
Theorem Doc_sections (path : list string) (nodes : list DocNode) :
  exists own fns,
    Doc path nodes
    = own ++ match fns with
             | [] => []
             | _ :: _ => [FnDoc fns]
             end
    /\ Forall2 (docFor path) (filter hasOwnDoc nodes) own
    /\ keptFrom (fun n => kind n = KindFunction) nodes fns
    /\ List.length (Doc path nodes)
       = List.length (filter hasOwnDoc nodes)
         + match fns with [] => 0 | _ :: _ => 1 end.
Proof.
  exists (flat_map (docStep path []) nodes), (filter isFunction nodes).
  pose proof (own_docs path nodes) as Hown.
  pose proof (filter_isFunction_kept nodes) as Hfns.
  rewrite Doc_split, existsb_isFunction.
  destruct (filter isFunction nodes) as [|fn fns].
  - rewrite app_nil_r. repeat split; [exact Hown | exact Hfns |].
    rewrite (Forall2_length Hown). lia.
  - repeat split; [exact Hown | exact Hfns |].
    rewrite length_app, (Forall2_length Hown). reflexivity.
Qed.

Lemma kind_cases (n : DocNode) :
  hasOwnCodeBlock n = true \/ hasOwnDoc n = true \/ isFunction n = true
  \/ kind n = KindImport \/ kind n = KindModuleDoc.
Proof.
  unfold hasOwnCodeBlock, hasOwnDoc, isFunction.
  destruct (kind n); simpl; auto 6.
Qed.

(** X7.  Of the nodes given to [CodeBlock] and [Doc], only import and
    module doc nodes are left out of both outputs: any other node is the
    source of a code block or of a doc section, or one of the nodes of
    the merged function block. *)
Theorem every_node_rendered (path : list string) (nodes : list DocNode)
    (n : DocNode) :
  In n nodes ->
  kind n <> KindImport ->
  kind n <> KindModuleDoc ->
  (exists b, In b (CodeBlock nodes)
             /\ (codeBlockNode b = Some n
                 \/ exists fns, b = FnCodeBlock fns /\ In n fns))
  \/ (exists d, In d (Doc path nodes) /\ docNode d = Some n).
Proof.
  intros Hin Himport Hmodule.
  destruct (kind_cases n) as [Hc|[Hd|[Hf|[H|H]]]]; try contradiction.
  - left.
    assert (Hsome : In (Some n)
                      (map codeBlockNode (flat_map (codeBlockStep []) nodes))).
    { rewrite own_code_nodes. apply in_map. apply filter_In. now split. }
    apply in_map_iff in Hsome. destruct Hsome as (b & Hb & Hinb).
    exists b. split; [|now left].
    rewrite CodeBlock_split. apply in_or_app. now left.
  - right.
    assert (Hsome : In (Some n)
                      (map docNode (flat_map (docStep path []) nodes))).
    { rewrite own_doc_nodes. apply in_map. apply filter_In. now split. }
    apply in_map_iff in Hsome. destruct Hsome as (d & Hd' & Hind).
    exists d. split; [|assumption].
    rewrite Doc_split. apply in_or_app. now left.
  - left. exists (FnCodeBlock (filter isFunction nodes)). split.
    + rewrite CodeBlock_split. apply in_or_app. right.
      replace (existsb isFunction nodes) with true; [now left|].
      symmetry. apply existsb_exists. now exists n.
    + right. eexists. split; [reflexivity|]. apply filter_In. now split.
Qed.

(** X8.  A table of contents is that of one of the given nodes, by the
    renderer of its kind, and there are one or two nodes then; with two
    nodes it is that of an interface. *)
Theorem DocToc_node_of_input (nodes : list DocNode) (t : TocElement) :
  DocToc nodes = Some t ->
  In (tocNode t) nodes
  /\ tocOf (tocNode t) = Some t
  /\ 1 <= List.length nodes <= 2
  /\ (List.length nodes = 2 -> kind (tocNode t) = KindInterface).
Proof using.
  unfold DocToc. destruct nodes as [|a [|b [|c nodes]]]; simpl;
    try discriminate.
  - intros Ht. assert (Hnode : tocNode t = a).
    { unfold tocOf in Ht. destruct (kind a); inversion Ht; reflexivity. }
    rewrite Hnode. repeat split; auto; lia.
  - unfold JS.find. simpl.
    destruct (kind_eqb (kind a) KindInterface) eqn:Ha;
      [|destruct (kind_eqb (kind b) KindInterface) eqn:Hb; [|discriminate]].
    + apply kind_eqb_eq in Ha. intros Ht.
      assert (Hnode : tocNode t = a).
      { unfold tocOf in Ht. rewrite Ha in Ht. now inversion Ht. }
      rewrite Hnode. unfold tocOf in *. repeat split; auto; lia.
    + apply kind_eqb_eq in Hb. intros Ht.
      assert (Hnode : tocNode t = b).
      { unfold tocOf in Ht. rewrite Hb in Ht. now inversion Ht. }
      rewrite Hnode. unfold tocOf in *. repeat split; auto; lia.
Qed.

(** *** More on namespace resolution *)

Lemma fold_resolveStep_trail (path : list string) (es acc : list DocNode) :
  fold_left resolveStep path (es, acc)
  = (fst (resolvePath es path), acc ++ snd (resolvePath es path)).
Proof.
  revert es acc. unfold resolvePath.
  induction path as [|nm path IH]; intros es acc; simpl.
  - now rewrite app_nil_r.
  - destruct (JS.find (isNamespaceNamed nm) es) as [ns|].
    + unfold JS.push. rewrite (IH _ (acc ++ [ns])), (IH _ ([] ++ [ns])).
      simpl. now rewrite <- app_assoc.
    + rewrite (IH es acc). reflexivity.
Qed.

(** X9.  A segment that names a namespace of the current list puts that
    namespace on the trail, and the rest of the path is resolved in its
    elements. *)
Theorem resolvePath_descends (es : list DocNode) (nm : string)
    (path : list string) (ns : DocNode) :
  JS.find (isNamespaceNamed nm) es = Some ns ->
  resolvePath es (nm :: path)
  = (fst (resolvePath (namespaceDef_elements ns) path),
     ns :: snd (resolvePath (namespaceDef_elements ns) path)).
Proof.
  intros Hfind. unfold resolvePath at 1. simpl. rewrite Hfind.
  unfold JS.push. simpl. apply fold_resolveStep_trail.
Qed.

Lemma resolvePath_skip (es : list DocNode) (nm : string)
    (path : list string) :
  JS.find (isNamespaceNamed nm) es = None ->
  resolvePath es (nm :: path) = resolvePath es path.
Proof.
  intros Hfind. unfold resolvePath. simpl. now rewrite Hfind.
Qed.

Lemma find_namespace (es : list DocNode) (nm : string) (ns : DocNode) :
  JS.find (isNamespaceNamed nm) es = Some ns ->
  In ns es /\ kind ns = KindNamespace /\ name ns = nm.
Proof.
  intros Hfind. apply find_some in Hfind. destruct Hfind as [Hin Hns].
  unfold isNamespaceNamed in Hns. apply andb_true_iff in Hns.
  destruct Hns as [Hkind Hname].
  apply kind_eqb_eq in Hkind. apply String.eqb_eq in Hname. auto.
Qed.

(** X10.  The trail of resolved namespaces is a chain in the tree of
    the entries: each namespace is an element of the one before it; the
    list reached is that of the innermost one; the trail names segments
    of the path only and is no longer than the path. *)
Theorem resolvePath_trail (es : list DocNode) (path : list string) :
  let trail := snd (resolvePath es path) in
  nestedIn es trail
  /\ fst (resolvePath es path) = innermost es trail
  /\ Forall (fun ns => In (name ns) path) trail
  /\ List.length trail <= List.length path.
Proof using.
  revert es. induction path as [|nm path IH]; intros es.
  - simpl. repeat split; [constructor | lia].
  - destruct (JS.find (isNamespaceNamed nm) es) as [ns|] eqn:Hfind.
    + assert (Hstep : resolvePath es (nm :: path)
                      = (fst (resolvePath (namespaceDef_elements ns) path),
                         ns :: snd (resolvePath (namespaceDef_elements ns)
                                      path))).
      { unfold resolvePath at 1. simpl. rewrite Hfind.
        unfold JS.push. simpl. apply fold_resolveStep_trail. }
      rewrite Hstep. cbn [fst snd].
      destruct (find_namespace es nm ns Hfind) as (Hin & Hkind & Hname).
      destruct (IH (namespaceDef_elements ns)) as (Hnest & Hfst & Hnames & Hlen).
      simpl. repeat split; auto; [|lia].
      constructor; [now left|].
      eapply Forall_impl; [|exact Hnames]. intros m Hm. now right.
    + rewrite (resolvePath_skip es nm path Hfind).
      destruct (IH es) as (Hnest & Hfst & Hnames & Hlen).
      repeat split; auto; [|simpl; lia].
      eapply Forall_impl; [|exact Hnames]. intros m Hm. now right.
Qed.

(** *** More on [DocPage] *)

Lemma path_of_item (item : string) :
  snd (JS.pop (JS.split "." item)) = removelast (JS.split "." item).
Proof. apply pop_rest. Qed.

Lemma path_undotted (item : string) :
  contains "." item = false -> JS.pop (JS.split "." item) = (Some item, []).
Proof. intros Hdot. now rewrite (split_whole "." item Hdot). Qed.

Lemma path_dotted (prefix last : string) :
  contains "." last = false ->
  JS.pop (JS.split "." (prefix ++ "." ++ last)%string)
  = (Some last, JS.split "." prefix).
Proof.
  intros Hlast.
  change (prefix ++ "." ++ last)%string with (prefix ++ String "." last)%string.
  now rewrite split_app, (split_whole "." last Hlast), pop_snoc.
Qed.

Lemma snd_itemPage (base : string) (state : StoreState) (item : string) :
  snd (itemPage base state item) = snd (resolveItem state item).
Proof.
  unfold itemPage.
  destruct (JS.pop (JS.split "." item)) as [last path].
  destruct (resolveItem state item) as [es state'].
  now destruct (targetNodes state item).
Qed.

(** X11.  [DocPage] leaves the entries, the url and the private flag of
    the store as they are.  It overwrites [namespaces], with the trail
    of the resolved namespaces, exactly when the item holds a dot; on
    any other call the store is left untouched. *)
Theorem DocPage_store (base : string) (state : StoreState)
    (children : option string) :
  let state' := snd (DocPage base state children) in
  entries state' = entries state
  /\ url state' = url state
  /\ includePrivate state' = includePrivate state
  /\ match children with
     | Some item =>
         if contains "." item
         then namespaces state'
              = Some (snd (resolvePath (entries state)
                             (removelast (JS.split "." item))))
         else state' = state
     | None => state' = state
     end.
Proof.
  destruct children as [item|]; [|now repeat split].
  unfold DocPage. destruct (String.eqb_spec item "") as [->|Hitem];
    [now repeat split|].
  rewrite (truthy_nonempty item Hitem), snd_itemPage.
  cbv zeta. unfold resolveItem.
  destruct (contains "." item) eqn:Hdot.
  - pose proof (path_of_item item) as Hpath.
    rewrite split_length in Hdot. apply Nat.leb_le in Hdot.
    destruct (JS.pop (JS.split "." item)) as [last path].
    simpl in Hpath. subst path.
    destruct (removelast (JS.split "." item)) as [|x xs] eqn:Hpath.
    + destruct (JS.split "." item) as [|seg [|seg' segs]];
        simpl in Hdot; try lia. discriminate.
    + cbn [List.length Nat.eqb negb].
      destruct (resolvePath (entries state) (x :: xs)).
      now repeat split.
  - rewrite (path_undotted item Hdot). now repeat split.
Qed.

(** X12.  An item without a dot is looked up by its whole name among
    the top level entries, imports left out: the elements of the
    namespaces are not searched. *)
Theorem targetNodes_undotted (state : StoreState) (item : string) :
  contains "." item = false ->
  targetNodes state item
  = filter
      (fun e =>
         String.eqb (name e) item && negb (kind_eqb (kind e) KindImport))
      (entries state).
Proof.
  intros Hdot. unfold targetNodes, resolveItem.
  now rewrite (path_undotted item Hdot).
Qed.

(** X13.  An item [prefix.last], where [last] holds no dot, is looked up
    by the name [last] in the list that resolving the segments of
    [prefix] reaches. *)
Theorem targetNodes_dotted (state : StoreState) (prefix last : string) :
  contains "." last = false ->
  targetNodes state (prefix ++ "." ++ last)%string
  = filter
      (fun e =>
         String.eqb (name e) last && negb (kind_eqb (kind e) KindImport))
      (fst (resolvePath (entries state) (JS.split "." prefix))).
Proof.
  intros Hlast. unfold targetNodes.
  rewrite fst_resolveItem, (path_dotted prefix last Hlast). reflexivity.
Qed.

(** X14.  The doc comment of a page is that of the first node that has
    one: the nodes before it have none; there is none when no node has
    one. *)
Theorem firstJsDoc_first_match (nodes : list DocNode) :
  (firstJsDoc nodes = None <-> Forall (fun n => jsDoc n = None) nodes)
  /\ (forall js,
        firstJsDoc nodes = Some js ->
        exists before n after,
          nodes = before ++ n :: after
          /\ Forall (fun m => jsDoc m = None) before
          /\ jsDoc n = Some js).
Proof using.
  induction nodes as [|n nodes [IHnone IHsome]]; simpl.
  - split; [split; [constructor | reflexivity] | discriminate].
  - destruct (jsDoc n) as [js'|] eqn:Hjs.
    + split.
      * split; [discriminate|]. intros H. inversion H; congruence.
      * intros js Heq. inversion Heq; subst.
        exists [], n, nodes. repeat split; [constructor | assumption].
    + split.
      * split.
        -- intros H. constructor; [assumption | now apply IHnone].
        -- intros H. inversion H; subst. now apply IHnone.
      * intros js Heq.
        destruct (IHsome js Heq) as (before & m & after & -> & Hb & Hm).
        exists (n :: before), m, after.
        repeat split; [constructor; assumption | assumption].
Qed.

Lemma collect_item_page_parts {A : Type} (pick : Element -> list A)
    (meta : Element) (nav : Element) (toc : option TocElement)
    (title : Element) (usage : bool) (u : Element) (abstract : bool)
    (ta : Element) (deprecated : bool) (td : Element) (js : Element)
    (code : list CodeElement) (sections : list DocElement) :
  (forall tag cs, pick (EHtml tag cs) = []) ->
  collect pick
    (EHtml "div"
       [ meta; EHtml "nav" (nav :: tocChild toc);
         EHtml "article"
           (title :: when usage u ++ when abstract ta ++ when deprecated td
            ++ js :: map ECode code ++ map EDoc sections) ])
  = collect pick meta
    ++ (collect pick nav ++ flat_map (collect pick) (tocChild toc))
    ++ collect pick title
    ++ (if usage then collect pick u else [])
    ++ (if abstract then collect pick ta else [])
    ++ (if deprecated then collect pick td else [])
    ++ collect pick js
    ++ flat_map (fun b => pick (ECode b)) code
    ++ flat_map (fun d => pick (EDoc d)) sections.
Proof.
  intros Hhtml.
  rewrite !collect_EHtml, !Hhtml. simpl.
  rewrite !collect_EHtml, !Hhtml. simpl.
  rewrite app_nil_r, !flat_map_app. simpl.
  rewrite !flat_map_app, collect_map_ECode, collect_map_EDoc.
  destruct usage, abstract, deprecated; simpl;
    now rewrite ?app_nil_r, <- ?app_assoc.
Qed.

(** X15.  The page of an item that is found holds the code blocks of
    [CodeBlock] and the doc sections of [Doc] on the target nodes, with
    the segments before the last one as the path; the table of contents
    of [DocToc], if any; the doc comment text of the first documented
    node in its meta data; and no error message. *)
Theorem DocPage_item_page (base : string) (state : StoreState)
    (item : string) (first : DocNode) (rest : list DocNode) :
  item <> "" ->
  targetNodes state item = first :: rest ->
  let nodes := first :: rest in
  let page := fst (DocPage base state (Some item)) in
  collect pickMeta page
  = [(base, url state, docOrEmpty (firstJsDoc nodes), Some item)]
  /\ collect pickToc page
     = match DocToc nodes with Some t => [t] | None => [] end
  /\ codeBlocksOf page = CodeBlock nodes
  /\ docBlocksOf page = Doc (removelast (JS.split "." item)) nodes
  /\ errorMessagesOf page = [].
Proof.
  intros Hitem Hnodes nodes page. unfold page, DocPage.
  rewrite (truthy_nonempty item Hitem).
  rewrite (itemPage_found base state item first rest Hnodes).
  rewrite path_of_item. fold nodes.
  unfold codeBlocksOf, docBlocksOf, errorMessagesOf.
  rewrite !collect_item_page_parts by reflexivity.
  assert (Htoc : forall (A : Type) (pick : Element -> list A),
             flat_map (collect pick) (tocChild (DocToc nodes))
             = match DocToc nodes with
               | Some t => pick (EToc t)
               | None => []
               end).
  { intros A pick. destruct (DocToc nodes); simpl; [|reflexivity].
    unfold collect. simpl. now rewrite !app_nil_r. }
  rewrite !Htoc.
  rewrite (flat_map_nil (fun b => pickMeta (ECode b))) by reflexivity.
  rewrite (flat_map_nil (fun d => pickMeta (EDoc d))) by reflexivity.
  rewrite (flat_map_nil (fun b => pickToc (ECode b))) by reflexivity.
  rewrite (flat_map_nil (fun d => pickToc (EDoc d))) by reflexivity.
  rewrite (flat_map_nil (fun d => pickCode (EDoc d))) by reflexivity.
  rewrite (flat_map_nil (fun b => pickDoc (ECode b))) by reflexivity.
  rewrite (flat_map_nil (fun b => pickError (ECode b))) by reflexivity.
  rewrite (flat_map_nil (fun d => pickError (EDoc d))) by reflexivity.
  change (fun b => pickCode (ECode b)) with (fun b : CodeElement => [b]).
  change (fun d => pickDoc (EDoc d)) with (fun d : DocElement => [d]).
  rewrite !flat_map_singleton.
  destruct (DocToc nodes), (negb _), (isAbstract first), (isDeprecated _);
    simpl; rewrite ?app_nil_r; repeat split.
Qed.

(** *** [DocMeta], [SideBarHeader], [Usage], [DocNodes] and [ModuleToc] *)

Lemma length_snoc (s : string) (c : ascii) :
  String.length (s ++ String c "") = S (String.length s).
Proof. induction s as [|x s IH]; simpl; [reflexivity | now rewrite IH]. Qed.

Lemma substring_snoc (s : string) (c : ascii) :
  String.substring (String.length s) 1 (s ++ String c "") = String c "".
Proof. induction s as [|x s IH]; simpl; [reflexivity | exact IH]. Qed.

Lemma endsWith_snoc (s : string) (c : ascii) :
  JS.endsWith (s ++ String c "") (String c "") = true.
Proof.
  unfold JS.endsWith. rewrite length_snoc.
  cbn [String.length Nat.leb Nat.sub]. rewrite Nat.sub_0_r, substring_snoc.
  now rewrite String.eqb_refl.
Qed.

(** X16.  The link of an item has one slash between the url and ["~/"]:
    a url and the same url followed by a slash give the same link. *)
Theorem docMetaHref_one_slash (url item : string) :
  item <> "" ->
  JS.endsWith url "/" = false ->
  docMetaHref url (Some item) = (url ++ "/~/" ++ item)%string
  /\ docMetaHref (url ++ "/") (Some item) = (url ++ "/~/" ++ item)%string.
Proof.
  intros Hitem Hslash. unfold docMetaHref.
  rewrite (truthy_nonempty item Hitem), Hslash, endsWith_snoc.
  split; [reflexivity|]. now rewrite append_assoc.
Qed.

Lemma concat_last (sep last : string) (parts : list string) :
  exists front, String.concat sep (parts ++ [last]) = (front ++ last)%string.
Proof.
  destruct parts as [|p parts].
  - now exists "".
  - exists (String.concat sep (p :: parts) ++ sep)%string.
    rewrite concat_snoc by discriminate. now rewrite append_assoc.
Qed.

(** X17.  The title of a url that [parseURL] reads does not mention the
    item, and it ends with the registry and [" | Deno Doc"]. *)
Theorem docMetaTitle_parsed (getUrlLabel : string -> string)
    (url : string) (parsed : ParsedURL) (item item' : option string) :
  parseURL url = Some parsed ->
  docMetaTitle getUrlLabel url item = docMetaTitle getUrlLabel url item'
  /\ exists front,
       docMetaTitle getUrlLabel url item
       = (front ++ registry parsed ++ " | Deno Doc")%string.
Proof.
  intros Hparsed. unfold docMetaTitle. rewrite Hparsed.
  split; [reflexivity|]. unfold JS.join.
  match goal with
  | |- context [String.concat _ (JS.push ?parts _)] =>
      destruct (concat_last enDash (registry parsed) parts) as [front Hfront]
  end.
  exists front. unfold JS.push at 1. rewrite Hfront.
  now rewrite append_assoc.
Qed.

Lemma truthy_Some (v : option string) :
  JS.truthy v = true -> v <> None.
Proof. now destruct v. Qed.

Lemma truthy_sideBarModule (parsed : ParsedURL) :
  JS.truthy (sideBarModule parsed) = JS.truthy (module parsed).
Proof.
  unfold sideBarModule.
  destruct (JS.truthy (module parsed)) eqn:Hmodule; [|reflexivity].
  destruct (module parsed) as [[|c rest]|]; try discriminate.
  simpl. now destruct (Ascii.eqb c "/").
Qed.

(** X18.  The header has no title exactly when the module, the
    organization and the package are all missing or empty.  It has a
    subtitle exactly when there is a module beside an organization or a
    package, or when neither of the two is there and the registry is
    [deno.land/std]. *)
Theorem sideBarTitles_defined (parsed : ParsedURL) :
  let title := fst (sideBarTitles parsed) in
  let subtitle := snd (sideBarTitles parsed) in
  (title = None
   <-> JS.truthy (module parsed) = false
       /\ JS.truthy (org parsed) = false
       /\ JS.truthy (package parsed) = false)
  /\ (subtitle <> None
      <-> (JS.truthy (module parsed) = true
           /\ (JS.truthy (org parsed) = true
               \/ JS.truthy (package parsed) = true))
          \/ (JS.truthy (org parsed) = false
              /\ JS.truthy (package parsed) = false
              /\ registry parsed = "deno.land/std")).
Proof using.
  cbv zeta. unfold sideBarTitles. rewrite truthy_sideBarModule.
  pose proof (truthy_sideBarModule parsed) as Hmod.
  destruct (JS.truthy (org parsed)) eqn:Horg;
    destruct (JS.truthy (package parsed)) eqn:Hpkg;
    destruct (JS.truthy (module parsed)) eqn:Hmodule;
    try destruct (String.eqb_spec (registry parsed) "deno.land/std")
      as [Hstd|Hstd];
    cbn [fst snd];
    try apply truthy_Some in Hmod;
    try apply truthy_Some in Hpkg;
    (split; split;
     [ intros H; try congruence; try discriminate
     | intros H; try (exfalso; decompose [and or] H; discriminate)
     | intros H; try congruence
     | intros H; try discriminate ]).
  all: try (decompose [and or] H; try discriminate; try congruence).
  all: try (unfold sideBarModule; rewrite Hmodule; reflexivity).
  all: try solve [repeat split; reflexivity].
  all: try solve [right; repeat split; first [assumption | reflexivity]].
  all: try solve [left; split; [reflexivity|]; first [now left | now right]].
Qed.

Lemma truthy_inv (v : option string) :
  JS.truthy v = true -> exists s, v = Some s /\ s <> "".
Proof.
  destruct v as [s|]; [|discriminate]. unfold JS.truthy.
  destruct (String.eqb_spec s ""); [discriminate | eauto].
Qed.

(** The record that [parseUsage] returns for an item that is given. *)
Lemma parseUsage_given (url item : string) (isType : option bool) :
  exists sym symbol var,
    parseUsage url (Some item) isType
    = {| importSymbol := Some sym;
         usageSymbol := symbol;
         localVar := Some var;
         importStatement :=
           let line :=
             if JS.truthy (Some item)
             then ("import " ++ (if JS.truthyb isType then "type " else "")
                   ++ "{ " ++ sym ++ " } from " ++ JS.dq ++ url ++ JS.dq
                   ++ ";" ++ JS.nl)%string
             else ("import * as " ++ sym ++ " from " ++ JS.dq ++ url ++ JS.dq
                   ++ ";" ++ JS.nl)%string in
           if JS.truthy symbol
           then (line ++ JS.nl ++ "const { " ++ JS.interp symbol ++ " } = "
                 ++ var ++ ";" ++ JS.nl)%string
           else line |}.
Proof.
  unfold parseUsage. simpl option_map.
  destruct (split_cons "." item) as (seg & segs & ->).
  destruct (Nat.ltb 1 (List.length (seg :: segs)));
    [destruct (JS.pop (seg :: segs)) as [l r]|];
    do 3 eexists; reflexivity.
Qed.

Ltac normalize_strings :=
  repeat (progress (cbn [append textOf fold_right app when child JS.interp];
                    rewrite ?append_assoc)).

(** X19.  The statement that the copy button copies is the one shown,
    followed by a line feed; when a symbol is destructured the text
    shown has one more space, before the blank line. *)
Theorem Usage_shown_and_copied (url : string) (item : option string)
    (isType : option bool) :
  let u := parseUsage url item isType in
  let shown := textOf (usageCode url item isType) in
  if JS.truthy (usageSymbol u)
  then exists line declaration,
         shown = (line ++ " " ++ JS.nl ++ JS.nl ++ declaration)%string
         /\ importStatement u
            = (line ++ JS.nl ++ JS.nl ++ declaration ++ JS.nl)%string
  else importStatement u = (shown ++ JS.nl)%string.
Proof.
  cbv zeta. unfold usageCode. destruct item as [item|].
  - destruct (parseUsage_given url item isType) as (sym & symbol & var & ->).
    cbn [importSymbol usageSymbol localVar importStatement].
    destruct (JS.truthy symbol) eqn:Hsymbol.
    + destruct (truthy_inv _ Hsymbol) as (us & -> & _).
      destruct (JS.truthy (Some item)) eqn:Hitem.
      * exists ("import " ++ (if JS.truthyb isType then "type " else "")
                ++ "{ " ++ sym ++ " } from " ++ JS.dq ++ url ++ JS.dq
                ++ ";")%string,
          ("const { " ++ us ++ " } = " ++ var ++ ";")%string.
        split; destruct (JS.truthyb isType); normalize_strings; reflexivity.
      * exists ("import * as " ++ sym ++ " from " ++ JS.dq ++ url ++ JS.dq
                ++ ";")%string,
          ("const { " ++ us ++ " } = " ++ var ++ ";")%string.
        split; normalize_strings; reflexivity.
    + destruct (JS.truthy (Some item)), (JS.truthyb isType);
        normalize_strings; reflexivity.
  - cbn [parseUsage option_map importSymbol usageSymbol localVar
           importStatement JS.truthy].
    normalize_strings. reflexivity.
Qed.

(** X20.  The body of a module page and its table of contents agree:
    the sections of [DocNodes] have the titles of the links of
    [ModuleToc], in the same order.  The usage block comes under the
    same condition as on an item page.  [DocNodes] fails exactly on a
    module doc group that is there and empty. *)
Theorem DocNodes_sections_match_toc (importDef_src : DocNode -> string)
    (url : string) (library : bool) (collection : DocNodeCollection) :
  (DocNodes url library collection = None
   <-> colModuleDoc collection = Some [])
  /\ (forall blocks,
        DocNodes url library collection = Some blocks ->
        sectionTitles blocks
        = snd (fst (ModuleToc importDef_src library collection))
        /\ usagesOf blocks
           = if JS.endsWith url ".d.ts" || library then [] else [url]).
Proof using.
  unfold DocNodes, ModuleToc. cbn [fst snd].
  destruct (colModuleDoc collection) as [[|[label node] group]|].
  - split; [now split|discriminate].
  - split; [split; discriminate|]. intros blocks Hblocks.
    injection Hblocks as <-.
    destruct (colNamespace collection), (colClass collection),
      (colEnum collection), (colVariable collection),
      (colFunction collection), (colInterface collection),
      (colTypeAlias collection), (JS.endsWith url ".d.ts" || library);
      split; reflexivity.
  - split; [split; discriminate|]. intros blocks Hblocks.
    injection Hblocks as <-.
    destruct (colNamespace collection), (colClass collection),
      (colEnum collection), (colVariable collection),
      (colFunction collection), (colInterface collection),
      (colTypeAlias collection), (JS.endsWith url ".d.ts" || library);
      split; reflexivity.
Qed.

(** X21.  A name that only import nodes carry is not found: the page of
    such an item is the not found page. *)
Theorem DocPage_import_not_found (base : string) (state : StoreState)
    (item : string) :
  item <> "" ->
  contains "." item = false ->
  (forall e, In e (entries state) -> name e = item -> kind e = KindImport) ->
  fst (DocPage base state (Some item)) = notFoundPage item (url state).
Proof.
  intros Hitem Hdot Himport. unfold DocPage.
  rewrite (truthy_nonempty item Hitem). apply itemPage_missing.
  unfold targetNodes, resolveItem. rewrite (path_undotted item Hdot).
  cbn [fst isTarget].
  induction (entries state) as [|e es IH]; [reflexivity|]. simpl.
  destruct (String.eqb_spec (name e) item) as [Hname|Hname]; simpl.
  - rewrite (Himport e (or_introl eq_refl) Hname). simpl.
    apply IH. intros e' He'. apply Himport. now right.
  - apply IH. intros e' He'. apply Himport. now right.
Qed.

(** X22.  An item [ns.last] whose [ns] names no namespace of the top
    level is looked up, by the name [last], among the top level entries,
    and the trail left in the store is empty. *)
Theorem unresolved_namespace_falls_back (base : string) (state : StoreState)
    (ns last : string) :
  contains "." ns = false ->
  contains "." last = false ->
  JS.find (isNamespaceNamed ns) (entries state) = None ->
  targetNodes state (ns ++ "." ++ last)%string
  = filter
      (fun e =>
         String.eqb (name e) last && negb (kind_eqb (kind e) KindImport))
      (entries state)
  /\ namespaces (snd (DocPage base state (Some (ns ++ "." ++ last)%string)))
     = Some [].
Proof.
  intros Hns Hlast Hfind.
  assert (Hpath : resolvePath (entries state) (JS.split "." ns)
                  = (entries state, [])).
  { rewrite (split_whole "." ns Hns). unfold resolvePath. simpl.
    now rewrite Hfind. }
  split.
  - unfold targetNodes.
    rewrite fst_resolveItem, (path_dotted ns last Hlast). cbn [snd].
    rewrite Hpath. reflexivity.
  - unfold DocPage.
    change (ns ++ "." ++ last)%string with (ns ++ String "." last)%string.
    rewrite (truthy_nonempty _ (append_nonempty ns last ".")), snd_itemPage.
    unfold resolveItem.
    rewrite split_app, (split_whole "." last Hlast), pop_snoc.
    rewrite Hpath, (split_whole "." ns Hns). reflexivity.
Qed.

End Docland.

(** ** The properties on the sample documents *)

(** C1, as stated, fails on a single segment item: [localVar] is defined
    though the path has one segment, and [usageSymbol] is not. *)
Lemma parseUsage_single_segment_localVar :
  let u :=
    parseUsage (fun _ => None) (fun s => s) "https://deno.land/x/oak/mod.ts"
      (Some "Foo") None in
  List.length (JS.split "." "Foo") = 1
  /\ localVar u = Some "Foo"
  /\ usageSymbol u = None.
Proof. repeat split. Qed.

(** C2, as stated, fails on ["A.B.T"]: ["A"] names no namespace of the
    top level, yet ["B"] is resolved after it, so the lookup of ["T"]
    runs in the elements of [B] and not in the top level entries. *)
Lemma resolution_continues_after_failure :
  JS.find (isNamespaceNamed "A") (entries sampleState) = None
  /\ fst (resolveItem sampleState "A.B.T") = [sampleClassT]
  /\ fst (resolveItem sampleState "A.B.T") <> entries sampleState
  /\ namespaces (snd (resolveItem sampleState "A.B.T"))
     = Some [sampleNamespaceB]
  /\ targetNodes sampleState "A.B.T" = [sampleClassT]
  /\ filter (isTarget (Some "T")) (entries sampleState) = [].
Proof. repeat split. discriminate. Qed.

(** The skipped segment on the sample: ["A"] of ["A.B.T"]. *)
Lemma resolution_skips_unresolved_witness :
  snd (JS.pop (JS.split "." "A.B.T")) = [] ++ "A" :: ["B"]
  /\ noNamespace "A" (fst (resolvePath (entries sampleState) []))
  /\ resolves (entries sampleState) [] ["B"]
       (fst (resolvePath (entries sampleState) ([] ++ "A" :: ["B"])))
       (snd (resolvePath (entries sampleState) ([] ++ "A" :: ["B"])))
  /\ fst (resolveItem sampleState "A.B.T") = [sampleClassT].
Proof.
  assert (Hno : noNamespace "A" (fst (resolvePath (entries sampleState) []))).
  { repeat constructor; intros [Hkind Hname]; discriminate. }
  split; [reflexivity|]. split; [exact Hno|].
  pose proof (resolution_skips_unresolved sampleState "A.B.T" [] ["B"] "A"
                eq_refl Hno) as H.
  split; [exact (proj1 (proj2 (proj2 H)))|].
  exact (proj1 (proj2 (proj2 (proj2 (proj2 H))))).
Defined.

(** The not found page on the sample: no entry is named ["NoSuchName"]. *)
Lemma DocPage_entry_not_found_witness :
  let page :=
    fst (DocPage (fun _ => false) (fun _ => false) "https://doc.deno.land"
           sampleState (Some "NoSuchName")) in
  "NoSuchName" <> ""
  /\ targetNodes sampleState "NoSuchName" = []
  /\ page = notFoundPage "NoSuchName" "https://deno.land/x/oak/mod.ts"
  /\ codeBlocksOf page = []
  /\ docBlocksOf page = [].
Proof.
  assert (Hitem : "NoSuchName" <> "") by discriminate.
  split; [exact Hitem|]. split; [reflexivity|].
  destruct (proj1 (DocPage_entry_not_found (fun _ => false) (fun _ => false)
                     "https://doc.deno.land" sampleState (Some "NoSuchName"))
              "NoSuchName" eq_refl Hitem eq_refl)
    as (Hpage & _ & Hcode & Hdoc).
  repeat split; assumption.
Defined.

(** The usage block on the sample: the item page of ["A"]. *)
Lemma DocPage_usage_block_witness :
  let page :=
    fst (DocPage (fun _ => false) (fun _ => false) "https://doc.deno.land"
           sampleState (Some "A")) in
  "A" <> ""
  /\ targetNodes sampleState "A" = [sampleInterfaceA; sampleVariableA]
  /\ (usageBlocksOf page <> []
      <-> JS.endsWith (url sampleState) ".d.ts" = false
          /\ JS.startsWith (url sampleState) "deno/" = false).
Proof.
  assert (Hitem : "A" <> "") by discriminate.
  split; [exact Hitem|]. split; [reflexivity|].
  exact (proj1
           (DocPage_usage_block (fun _ => None) (fun s => s)
              (fun _ => false) (fun _ => false) "https://doc.deno.land"
              sampleState "A" sampleInterfaceA [sampleVariableA]
              Hitem eq_refl)).
Defined.

(** The two node case on the sample: an interface and a variable of
    the same name. *)
Lemma DocToc_dispatch_witness :
  kind sampleInterfaceA = KindInterface
  /\ DocToc [sampleInterfaceA; sampleVariableA]
     = Some (InterfaceToc sampleInterfaceA).
Proof.
  split; [reflexivity|].
  exact (proj1
           (proj1 (proj2 (proj2 DocToc_dispatch))
              sampleInterfaceA sampleVariableA)
           eq_refl).
Defined.

(** [parseUsage] with helpers that return, in a world without state. *)
Lemma parseUsage_total_witness :
  parseUsageEff unit
    (fun _ w => (Returned (option ParsedURL) None, w))
    (fun s w => (Returned string s, w)) "https://deno.land/x/oak/mod.ts"
    (Some "Application.listen") None tt
  = (Returned ParsedUsage
       (parseUsage (fun _ => None) (fun s => s)
          "https://deno.land/x/oak/mod.ts" (Some "Application.listen") None),
     tt).
Proof.
  exact (proj1
           (parseUsage_total (fun _ => None) (fun s => s) unit
              (fun _ w => (Returned (option ParsedURL) None, w))
              (fun s w => (Returned string s, w))
              "https://deno.land/x/oak/mod.ts" (Some "Application.listen")
              None tt (fun _ _ => eq_refl) (fun _ _ => eq_refl))).
Defined.

(** ** The further properties on the sample documents *)


(** A method of a class inside a namespace. *)
Lemma parseUsage_destructures_last_witness :
  contains "." "listen" = false
  /\ "listen" <> ""
  /\ localVar
       (parseUsage (fun _ => None) (fun s => s)
          "https://deno.land/x/oak/mod.ts"
          (Some ("oak.Application" ++ "." ++ "listen")%string) None)
     = Some "oak.Application".
Proof.
  assert (Hlast : "listen" <> "") by discriminate.
  split; [reflexivity|]. split; [exact Hlast|].
  exact (proj1 (proj2 (proj2
           (parseUsage_destructures_last (fun _ => None) (fun s => s)
              "https://deno.land/x/oak/mod.ts" "oak.Application" "listen"
              None eq_refl Hlast)))).
Defined.

(** The variable of the sample pair has a code block. *)
Lemma every_node_rendered_witness :
  In sampleVariableA [sampleInterfaceA; sampleVariableA]
  /\ kind sampleVariableA <> KindImport
  /\ kind sampleVariableA <> KindModuleDoc
  /\ ((exists b,
         In b (CodeBlock [sampleInterfaceA; sampleVariableA])
         /\ (codeBlockNode b = Some sampleVariableA
             \/ exists fns, b = FnCodeBlock fns /\ In sampleVariableA fns))
      \/ (exists d,
            In d (Doc [] [sampleInterfaceA; sampleVariableA])
            /\ docNode d = Some sampleVariableA)).
Proof.
  assert (Hin : In sampleVariableA [sampleInterfaceA; sampleVariableA])
    by (right; left; reflexivity).
  assert (Himport : kind sampleVariableA <> KindImport) by discriminate.
  assert (Hmodule : kind sampleVariableA <> KindModuleDoc) by discriminate.
  repeat split; try assumption.
  exact (every_node_rendered [] [sampleInterfaceA; sampleVariableA]
           sampleVariableA Hin Himport Hmodule).
Defined.

(** The table of contents of the sample pair. *)
Lemma DocToc_node_of_input_witness :
  DocToc [sampleInterfaceA; sampleVariableA]
  = Some (InterfaceToc sampleInterfaceA)
  /\ In (tocNode (InterfaceToc sampleInterfaceA))
       [sampleInterfaceA; sampleVariableA].
Proof.
  split; [reflexivity|].
  exact (proj1
           (DocToc_node_of_input [sampleInterfaceA; sampleVariableA]
              (InterfaceToc sampleInterfaceA) eq_refl)).
Defined.

(** The namespace of the sample is entered. *)
Lemma resolvePath_descends_witness :
  JS.find (isNamespaceNamed "B") (entries sampleState) = Some sampleNamespaceB
  /\ resolvePath (entries sampleState) ["B"] = ([sampleClassT], [sampleNamespaceB]).
Proof.
  split; [reflexivity|].
  exact (resolvePath_descends (entries sampleState) "B" [] sampleNamespaceB
           eq_refl).
Defined.

(** The lookup of ["A"], at the top level of the sample. *)
Lemma targetNodes_undotted_witness :
  contains "." "A" = false
  /\ targetNodes sampleState "A"
     = filter
         (fun e =>
            String.eqb (name e) "A" && negb (kind_eqb (kind e) KindImport))
         (entries sampleState).
Proof.
  split; [reflexivity|].
  exact (targetNodes_undotted sampleState "A" eq_refl).
Defined.

(** The lookup of ["B.T"], inside the namespace of the sample. *)
Lemma targetNodes_dotted_witness :
  contains "." "T" = false
  /\ targetNodes sampleState ("B" ++ "." ++ "T")%string
     = filter
         (fun e =>
            String.eqb (name e) "T" && negb (kind_eqb (kind e) KindImport))
         (fst (resolvePath (entries sampleState) (JS.split "." "B"))).
Proof.
  split; [reflexivity|].
  exact (targetNodes_dotted sampleState "B" "T" eq_refl).
Defined.

(** The page of ["A"] on the sample. *)
Lemma DocPage_item_page_witness :
  let page :=
    fst (DocPage (fun _ => false) (fun _ => false) "https://doc.deno.land"
           sampleState (Some "A")) in
  "A" <> ""
  /\ targetNodes sampleState "A" = [sampleInterfaceA; sampleVariableA]
  /\ codeBlocksOf page = CodeBlock [sampleInterfaceA; sampleVariableA].
Proof.
  assert (Hitem : "A" <> "") by discriminate.
  split; [exact Hitem|]. split; [reflexivity|].
  exact (proj1 (proj2 (proj2
           (DocPage_item_page (fun _ => false) (fun _ => false)
              "https://doc.deno.land" sampleState "A" sampleInterfaceA
              [sampleVariableA] Hitem eq_refl)))).
Defined.

(** The link of an item of a package root, with and without the slash. *)
Lemma docMetaHref_one_slash_witness :
  "Router" <> ""
  /\ JS.endsWith "https://deno.land/x/oak" "/" = false
  /\ docMetaHref ("https://deno.land/x/oak" ++ "/") (Some "Router")
     = ("https://deno.land/x/oak" ++ "/~/" ++ "Router")%string.
Proof.
  assert (Hitem : "Router" <> "") by discriminate.
  split; [exact Hitem|]. split; [reflexivity|].
  exact (proj2
           (docMetaHref_one_slash "https://deno.land/x/oak" "Router"
              Hitem eq_refl)).
Defined.

(** The title of the sample module, for two items. *)
Lemma docMetaTitle_parsed_witness :
  docMetaTitle (fun _ => Some sampleParsed) (fun s => s)
    "https://deno.land/x/oak@v10.0.0/mod.ts" (Some "Router")
  = docMetaTitle (fun _ => Some sampleParsed) (fun s => s)
      "https://deno.land/x/oak@v10.0.0/mod.ts" None.
Proof.
  exact (proj1
           (docMetaTitle_parsed (fun _ => Some sampleParsed) (fun s => s)
              "https://deno.land/x/oak@v10.0.0/mod.ts" sampleParsed
              (Some "Router") None eq_refl)).
Defined.

(** A name that the sample does not import, in a store of imports only. *)
Lemma DocPage_import_not_found_witness :
  let state :=
    {| entries := [mkDocNode "serve" None ImportDef];
       url := "https://deno.land/x/oak/mod.ts";
       includePrivate := false;
       namespaces := None |} in
  "serve" <> ""
  /\ contains "." "serve" = false
  /\ fst (DocPage (fun _ => false) (fun _ => false) "https://doc.deno.land"
            state (Some "serve"))
     = notFoundPage "serve" "https://deno.land/x/oak/mod.ts".
Proof.
  assert (Hitem : "serve" <> "") by discriminate.
  split; [exact Hitem|]. split; [reflexivity|].
  refine (DocPage_import_not_found (fun _ => false) (fun _ => false)
            "https://doc.deno.land" _ "serve" Hitem eq_refl _).
  intros e [<-|[]] _. reflexivity.
Defined.

(** ["A"] is an interface and a variable of the sample, not a namespace. *)
Lemma unresolved_namespace_falls_back_witness :
  contains "." "A" = false
  /\ contains "." "T" = false
  /\ JS.find (isNamespaceNamed "A") (entries sampleState) = None
  /\ namespaces
       (snd (DocPage (fun _ => false) (fun _ => false)
               "https://doc.deno.land" sampleState
               (Some ("A" ++ "." ++ "T")%string)))
     = Some [].
Proof.
  split; [reflexivity|]. split; [reflexivity|]. split; [reflexivity|].
  exact (proj2
           (unresolved_namespace_falls_back (fun _ => false) (fun _ => false)
              "https://doc.deno.land" sampleState "A" "T"
              eq_refl eq_refl eq_refl)).
Defined.
